(** * Posting service: accounts, bearer tokens, posts and the per-user post cache

    A shallow embedding of the service layer of the FastAPI application
    (schemas, repositories, services, controllers) together with the
    properties of its specification.

    Conventions.
    - A Python [str] whose characters matter (a post text) is a list of
      Unicode code points; identifiers, e-mail addresses, hashes and tokens
      are [string]s.
    - The relational store is a record of tables (lists of rows, oldest
      first) with the auto-increment counters; every repository call is a
      function from the store to a result and a new store.
    - A caught exception is a [None]/[false] result, as in the source; an
      exception that the source does not catch is the [Raise] outcome. *)

From Stdlib Require Import ZArith NArith Ascii String List Bool Lia.
From Stdlib Require Import DecimalString DecimalZ.
From stdpp Require Import base option list strings countable gmap sorting.

Open Scope Z_scope.

(** ** Outcomes of a call: a value or an uncaught exception *)

Inductive exn : Type :=
| ValueError            (* int() on a non-numeric string, malformed hash *)
| UnknownHashError      (* passlib: hash could not be identified *)
| PasswordValueError    (* passlib: the secret holds a NUL character *)
| PasswordSizeError     (* passlib: the secret is longer than 4096 *)
| ValidationError.      (* pydantic model validation *)

Inductive outcome (A : Type) : Type :=
| Ok (a : A)
| Raise (e : exn).
Arguments Ok {A} a.
Arguments Raise {A} e.

(** ** Python primitives used by the services *)

Module Py.

(** Code points for which [str.isspace] holds; [str.strip()] removes
    exactly these from both ends. *)
Definition isspace (c : N) : bool :=
  ((9 <=? c) && (c <=? 13) || (28 <=? c) && (c <=? 32) ||
   (c =? 133) || (c =? 160) || (c =? 5760) ||
   (8192 <=? c) && (c <=? 8202) || (c =? 8232) || (c =? 8233) ||
   (c =? 8239) || (c =? 8287) || (c =? 12288))%N.

Fixpoint lstrip (s : list N) : list N :=
  match s with
  | c :: r => if isspace c then lstrip r else s
  | [] => []
  end.

Definition rstrip (s : list N) : list N := rev (lstrip (rev s)).

(** [s.strip()] *)
Definition strip (s : list N) : list N := rstrip (lstrip s).

(** Surrogates cannot be encoded: [s.encode('utf-8')] raises
    [UnicodeEncodeError] (a [ValueError]) on them. *)
Definition is_scalar (c : N) : bool :=
  ((c <? 55296) || (57343 <? c) && (c <=? 1114111))%N.

Definition utf8_width (c : N) : Z :=
  if (c <? 128)%N then 1
  else if (c <? 2048)%N then 2
  else if (c <? 65536)%N then 3
  else 4.

(** [len(s.encode('utf-8'))], [None] when encoding raises. *)
Fixpoint utf8_len (s : list N) : option Z :=
  match s with
  | [] => Some 0
  | c :: r =>
      if is_scalar c
      then match utf8_len r with
           | Some n => Some (utf8_width c + n)
           | None => None
           end
      else None
  end.

(** [len(s)] *)
Definition len {A} (l : list A) : Z := Z.of_nat (length l).

(** [str(n)] for an [int]. *)
Definition str (n : Z) : string := NilZero.string_of_int (Z.to_int n).

(** The characters that [int] skips at both ends of a [string]: tab to
    carriage return and the blank, and of the characters from 128 on the
    Unicode spaces (next line, no-break space).  The separators 28 to 31
    are not among them. *)
Definition ascii_isspace (a : ascii) : bool :=
  let n := N_of_ascii a in
  ((9 <=? n) && (n <=? 13) || (n =? 32) || (n =? 133) || (n =? 160))%N.

Fixpoint lstrip_s (s : string) : string :=
  match s with
  | String a r => if ascii_isspace a then lstrip_s r else s
  | EmptyString => EmptyString
  end.

Fixpoint rstrip_s (s : string) : string :=
  match s with
  | String a r =>
      match rstrip_s r with
      | EmptyString => if ascii_isspace a then EmptyString
                       else String a EmptyString
      | r' => String a r'
      end
  | EmptyString => EmptyString
  end.

Definition strip_s (s : string) : string := rstrip_s (lstrip_s s).

(** Digit groups may be separated by single underscores ("1_000"); an
    underscore at either end or a doubled one is an error. *)
Fixpoint ungroup (after_digit : bool) (s : string) : option string :=
  match s with
  | EmptyString => if after_digit then Some EmptyString else None
  | String a r =>
      if Ascii.eqb a "_"
      then (if after_digit then ungroup false r else None)
      else option_map (String a) (ungroup true r)
  end.

Definition unsigned_of_string (s : string) : option Z :=
  match ungroup false s with
  | Some d => option_map Z.of_uint (NilZero.uint_of_string d)
  | None => None
  end.

(** [int(s)] for a [str]: surrounding whitespace is ignored, one sign
    is allowed, the rest must be decimal digits.  [None] stands for the
    [ValueError] that Python raises.  The interpreter's bound on the
    number of digits is left to [int_checked]: ids are database
    integers, far below it. *)
Definition int (s : string) : option Z :=
  match strip_s s with
  | EmptyString => None
  | String a r =>
      if Ascii.eqb a "-" then option_map Z.opp (unsigned_of_string r)
      else if Ascii.eqb a "+" then unsigned_of_string r
      else unsigned_of_string (String a r)
  end.

(** The digits that [int] reads, sign and underscores taken off. *)
Definition int_digits (s : string) : option string :=
  match strip_s s with
  | EmptyString => None
  | String a r =>
      if Ascii.eqb a "-" then ungroup false r
      else if Ascii.eqb a "+" then ungroup false r
      else ungroup false (String a r)
  end.

(** [sys.get_int_max_str_digits()] *)
Definition max_str_digits : nat := 4300.

(** [int(s)] with the interpreter's bound: a text of more than 4300
    digits is refused with a [ValueError] as well. *)
Definition int_checked (s : string) : option Z :=
  match int_digits s with
  | Some d => if (max_str_digits <? String.length d)%nat then None else int s
  | None => None
  end.

(** The ASCII digits. *)
Definition is_digit (a : ascii) : bool :=
  (48 <=? N_of_ascii a)%N && (N_of_ascii a <=? 57)%N.

(** Every character of [s] satisfies [P]. *)
Fixpoint all_chars (P : ascii -> bool) (s : string) : bool :=
  match s with
  | EmptyString => true
  | String a r => P a && all_chars P r
  end.

(** Neither whitespace nor an underscore. *)
Definition plain (a : ascii) : bool :=
  negb (ascii_isspace a) && negb (Ascii.eqb a "_").

End Py.


(** ** Schemas (pydantic models) *)

Module Schemas.

(** [PostBase.text]: [Field(..., min_length=1, max_length=10000)]. *)
Definition text_field_ok (v : list N) : bool :=
  (1 <=? Py.len v) && (Py.len v <=? 10000).

(** [PostCreate.validate_text_size]; [None] is the validation error
    (the explicit [ValueError], or the one [encode] raises). *)
Definition validate_text_size (v : list N) : option (list N) :=
  match Py.utf8_len v with
  | Some text_size =>
      if text_size >? 1024 * 1024 then None else Some (Py.strip v)
  | None => None
  end.

Record PostCreate := { pc_text : list N }.

(** Building a [PostCreate] from the request body: the field
    constraints run on the raw value, then the validator. *)
Definition parse_PostCreate (raw : list N) : option PostCreate :=
  if text_field_ok raw
  then option_map (fun t => {| pc_text := t |}) (validate_text_size raw)
  else None.

Record PostResponse := {
  pr_id : Z;
  pr_text : list N;
  pr_user_id : Z;
  pr_created_at : Z;
  pr_updated_at : Z
}.

Record PostCreateResponse := { pcr_postID : Z; pcr_message : string }.

Definition mk_PostCreateResponse (postID : Z) : PostCreateResponse :=
  {| pcr_postID := postID; pcr_message := "Post created successfully" |}.

Record PostsListResponse := {
  posts : list PostResponse;
  total : Z;
  cached : bool
}.

Record PostDeleteResponse := { pdr_message : string; pdr_postID : Z }.

Definition mk_PostDeleteResponse (postID : Z) : PostDeleteResponse :=
  {| pdr_message := "Post deleted successfully"; pdr_postID := postID |}.

Record UserCreate := { uc_email : string; uc_password : string }.
Record UserLogin := { ul_email : string; ul_password : string }.

(** Why a field value was refused: a length constraint of the field, or
    the [ValueError] of a validator with its message. *)
Inductive field_error : Type :=
| TooShort
| TooLong
| Refused (message : string).

(** [re.search(r'[A-Za-z]', v)] *)
Definition is_ascii_letter (a : ascii) : bool :=
  let n := N_of_ascii a in
  ((65 <=? n) && (n <=? 90) || (97 <=? n) && (n <=? 122))%N.

(** [UserCreate.validate_password].  A password is a [string], so its
    characters are code points below 256, among which [\d] matches the
    ASCII digits only. *)
Definition validate_password (v : string) : field_error + string :=
  if negb (existsb is_ascii_letter (list_ascii_of_string v))
  then inl (Refused "Password must contain at least one letter")
  else if negb (existsb Py.is_digit (list_ascii_of_string v))
  then inl (Refused "Password must contain at least one digit")
  else inr v.

(** [UserCreate.password]: [Field(..., min_length=8, max_length=128)],
    then the validator. *)
Definition parse_password (raw : string) : field_error + string :=
  if (String.length raw <? 8)%nat then inl TooShort
  else if (128 <? String.length raw)%nat then inl TooLong
  else validate_password raw.

(** [UserLogin.password]: [Field(..., min_length=1, max_length=128)]. *)
Definition parse_login_password (raw : string) : field_error + string :=
  if (String.length raw <? 1)%nat then inl TooShort
  else if (128 <? String.length raw)%nat then inl TooLong
  else inr raw.

Record TokenResponse := { token : string; token_type : string }.

Definition mk_TokenResponse (t : string) : TokenResponse :=
  {| token := t; token_type := "bearer" |}.

End Schemas.
Import Schemas.

(** ** Models and the relational store *)

Record User := {
  u_id : Z;
  u_email : string;
  u_hashed_password : string;
  u_is_active : bool
}.

Record Post := {
  p_id : Z;
  p_text : list N;
  p_user_id : Z;
  p_created_at : Z;
  p_updated_at : Z
}.

(** The two tables, rows in insertion order, and the AUTO_INCREMENT
    counters. *)
Record DB := {
  db_users : list User;
  db_posts : list Post;
  db_next_user : Z;
  db_next_post : Z
}.

Definition empty_db : DB :=
  {| db_users := []; db_posts := []; db_next_user := 1; db_next_post := 1 |}.

(** Post ids are unique and below the AUTO_INCREMENT counter. *)
Definition db_wf (d : DB) : Prop :=
  NoDup (map p_id (db_posts d)) /\
  Forall (fun p => p_id p < db_next_post d) (db_posts d).

(** Account addresses and ids are unique, ids lie below the counter. *)
Definition users_wf (d : DB) : Prop :=
  NoDup (map u_email (db_users d)) /\
  NoDup (map u_id (db_users d)) /\
  Forall (fun u => u_id u < db_next_user d) (db_users d).

(** [query.filter(...).first()] *)
Definition first_where {A} (f : A -> bool) (rows : list A) : option A :=
  List.find f rows.

(** [PostResponse.from_orm(post)]: the attributes are read and validated
    against the response schema, whose [text] carries the [PostBase]
    length bounds. *)
Definition from_orm (post : Post) : outcome PostResponse :=
  if text_field_ok (p_text post)
  then Ok {| pr_id := p_id post; pr_text := p_text post;
             pr_user_id := p_user_id post;
             pr_created_at := p_created_at post;
             pr_updated_at := p_updated_at post |}
  else Raise ValidationError.

(** [[f(x) for x in xs]] with an [f] that may raise. *)
Fixpoint comprehension {A B} (f : A -> outcome B) (xs : list A)
  : outcome (list B) :=
  match xs with
  | [] => Ok []
  | x :: r =>
      match f x with
      | Ok y => match comprehension f r with
                | Ok ys => Ok (y :: ys)
                | Raise e => Raise e
                end
      | Raise e => Raise e
      end
  end.

(** ** Repositories *)

(** Newest first: the order of [order_by(Post.created_at.desc())]. *)
Definition newer_first (a b : Post) : Prop := p_created_at b <= p_created_at a.

#[global] Instance newer_first_dec a b : Decision (newer_first a b).
Proof. unfold newer_first. apply _. Defined.

Module PostRepository.

(** [create]: [commit_ok] tells whether the commit went through; a
    [SQLAlchemyError] is rolled back and reported as [None].  [now] is
    the server's [func.now()]. *)
Definition create (db : DB) (post_data : PostCreate) (user_id : Z)
           (now : Z) (commit_ok : bool) : option Post * DB :=
  if commit_ok then
    let db_post := {| p_id := db_next_post db;
                      p_text := pc_text post_data;
                      p_user_id := user_id;
                      p_created_at := now;
                      p_updated_at := now |} in
    (Some db_post,
     {| db_users := db_users db;
        db_posts := db_posts db ++ [db_post];
        db_next_user := db_next_user db;
        db_next_post := db_next_post db + 1 |})
  else (None, db).

Definition get_by_id (db : DB) (post_id : Z) : option Post :=
  first_where (fun p => p_id p =? post_id) (db_posts db).

Definition get_user_posts (db : DB) (user_id : Z) : list Post :=
  merge_sort newer_first
    (List.filter (fun p => p_user_id p =? user_id) (db_posts db)).

Definition delete (db : DB) (post : Post) (commit_ok : bool) : bool * DB :=
  if commit_ok then
    (true,
     {| db_users := db_users db;
        db_posts := List.filter (fun p => negb (p_id p =? p_id post))
                                (db_posts db);
        db_next_user := db_next_user db;
        db_next_post := db_next_post db |})
  else (false, db).

(** [post.user_id == user_id if post else False] *)
Definition is_owner (post : option Post) (user_id : Z) : bool :=
  match post with
  | Some p => p_user_id p =? user_id
  | None => false
  end.

End PostRepository.

(** ** Post service: store access plus the per-instance listing cache *)

Module PostService.

(** The attributes of a [PostService] object: the session's store and
    the [_cache] dict (key to snapshot and its time). *)
Record t := {
  db : DB;
  _cache : gmap string (list PostResponse * Z)
}.

(** [__init__] *)
Definition init (d : DB) : t := {| db := d; _cache := ∅ |}.

(** [f"user_posts_{user_id}"] *)
Definition cache_key (user_id : Z) : string :=
  ("user_posts_" ++ Py.str user_id)%string.

(** [if cache_key in self._cache: del self._cache[cache_key]] *)
Definition invalidate (c : gmap string (list PostResponse * Z))
           (user_id : Z) : gmap string (list PostResponse * Z) :=
  delete (cache_key user_id) c.

Definition create_post (self : t) (post_data : PostCreate) (user_id : Z)
           (now : Z) (commit_ok : bool)
  : option PostCreateResponse * t :=
  match PostRepository.create (db self) post_data user_id now commit_ok with
  | (None, d) => (None, {| db := d; _cache := _cache self |})
  | (Some post, d) =>
      (Some (mk_PostCreateResponse (p_id post)),
       {| db := d; _cache := invalidate (_cache self) user_id |})
  end.

(** The fetch branch of [get_user_posts]. *)
Definition fetch_user_posts (self : t) (user_id : Z) (current_time : Z)
  : outcome PostsListResponse * t :=
  match comprehension from_orm
          (PostRepository.get_user_posts (db self) user_id) with
  | Ok post_responses =>
      (Ok {| posts := post_responses;
             total := Py.len post_responses;
             cached := false |},
       {| db := db self;
          _cache := <[cache_key user_id := (post_responses, current_time)]>
                      (_cache self) |})
  | Raise e => (Raise e, self)
  end.

(** [get_user_posts]; [current_time] is the reading of [time.time()]. *)
Definition get_user_posts (self : t) (user_id : Z) (current_time : Z)
  : outcome PostsListResponse * t :=
  match _cache self !! cache_key user_id with
  | Some (cached_data, cache_time) =>
      if current_time - cache_time <? 300
      then (Ok {| posts := cached_data;
                  total := Py.len cached_data;
                  cached := true |}, self)
      else fetch_user_posts self user_id current_time
  | None => fetch_user_posts self user_id current_time
  end.

Definition delete_post (self : t) (post_id : Z) (user_id : Z)
           (commit_ok : bool) : option PostDeleteResponse * t :=
  match PostRepository.get_by_id (db self) post_id with
  | None => (None, self)
  | Some post =>
      if negb (PostRepository.is_owner (Some post) user_id)
      then (None, self)
      else
        match PostRepository.delete (db self) post commit_ok with
        | (false, d) => (None, {| db := d; _cache := _cache self |})
        | (true, d) =>
            (Some (mk_PostDeleteResponse post_id),
             {| db := d; _cache := invalidate (_cache self) user_id |})
        end
  end.

(** Every snapshot equals what a fetch from the present store gives. *)
Definition coherent (self : t) : Prop :=
  forall user_id snapshot time,
    _cache self !! cache_key user_id = Some (snapshot, time) ->
    comprehension from_orm
      (PostRepository.get_user_posts (db self) user_id)
    = Ok snapshot.

(** The calls made on one service object, with their inputs. *)
Inductive operation : Type :=
| Create (post_data : PostCreate) (user_id now : Z) (commit_ok : bool)
| List_ (user_id now : Z)
| Delete (post_id user_id : Z) (commit_ok : bool).

Definition step (self : t) (op : operation) : t :=
  match op with
  | Create post_data user_id now ok =>
      snd (create_post self post_data user_id now ok)
  | List_ user_id now => snd (get_user_posts self user_id now)
  | Delete post_id user_id ok =>
      snd (delete_post self post_id user_id ok)
  end.

Definition run (ops : list operation) (self : t) : t :=
  fold_left step ops self.

(** The user on whose behalf an operation is made. *)
Definition operation_user (op : operation) : Z :=
  match op with
  | Create _ user_id _ _ => user_id
  | List_ user_id _ => user_id
  | Delete _ user_id _ => user_id
  end.

End PostService.

(** ** Post controller: one service object per request *)

(** What a route hands back: the response model, or the [HTTPException]
    it raised (status code and detail). *)
Inductive http (A : Type) : Type :=
| Response (status : Z) (body : A)
| HTTPException (status : Z) (detail : string).
Arguments Response {A} status body.
Arguments HTTPException {A} status detail.

Module PostController.

(** [add_post] *)
Definition add_post (d : DB) (post_data : PostCreate) (current_user : User)
           (now : Z) (commit_ok : bool) : http PostCreateResponse * DB :=
  let post_service := PostService.init d in
  match PostService.create_post post_service post_data
          (u_id current_user) now commit_ok with
  | (None, s) =>
      (HTTPException 400 "Failed to create post", PostService.db s)
  | (Some result, s) => (Response 201 result, PostService.db s)
  end.

(** [get_posts]; an exception escaping the service is kept as such. *)
Definition get_posts (d : DB) (current_user : User) (now : Z)
  : outcome (http PostsListResponse) * DB :=
  let post_service := PostService.init d in
  match PostService.get_user_posts post_service (u_id current_user) now with
  | (Ok result, s) => (Ok (Response 200 result), PostService.db s)
  | (Raise e, s) => (Raise e, PostService.db s)
  end.

(** [delete_post] *)
Definition delete_post (d : DB) (post_id : Z) (current_user : User)
           (commit_ok : bool) : http PostDeleteResponse * DB :=
  let post_service := PostService.init d in
  match PostService.delete_post post_service post_id
          (u_id current_user) commit_ok with
  | (None, s) =>
      (HTTPException 404
         "Post not found or you don't have permission to delete it",
       PostService.db s)
  | (Some result, s) => (Response 200 result, PostService.db s)
  end.

End PostController.

(** ** Configuration ([config.Settings] defaults) *)

Module settings.
Definition SECRET_KEY : string := "your-secret-key-change-in-production".
Definition ALGORITHM : string := "HS256".
Definition ACCESS_TOKEN_EXPIRE_MINUTES : Z := 30.
Definition MAX_PAYLOAD_SIZE : Z := 1024 * 1024.
Definition CACHE_EXPIRE_MINUTES : Z := 5.
End settings.

(** ** The token library (python-jose), as an interface

    A claim value is a string or an integer; a payload is a dict of
    claims.  [jwt_decode] answers [None] where the library raises a
    [JWTError] (malformed token, bad signature, wrong algorithm, expired).
    Clock readings are whole seconds since the epoch, the unit of the
    [exp] claim.  The one law is the library's contract for the tokens
    this application issues: a token decodes, under the key and algorithm
    it was encoded with, to the claims it was built from, unless its
    [exp] lies before the present second. *)

Inductive claim : Type :=
| CStr (s : string)
| CInt (z : Z).

#[global] Instance claim_eq_dec : EqDecision claim.
Proof. solve_decision. Defined.

Definition access_claims (sub email : string) (exp : Z) : gmap string claim :=
  <["exp" := CInt exp]> (<["email" := CStr email]> {["sub" := CStr sub]}).

Class JWT := {
  jwt_encode : gmap string claim -> string -> string -> string;
  jwt_decode : string -> string -> list string -> Z -> option (gmap string claim);
  jwt_decode_encode :
    forall (sub email : string) (exp : Z) (key : string) (now : Z),
      jwt_decode (jwt_encode (access_claims sub email exp) key "HS256")
                 key ["HS256"%string] now
      = if exp <? now then None else Some (access_claims sub email exp)
}.

(** ** The password library (passlib [CryptContext], scheme bcrypt)

    The digest itself is a parameter; the layout of a hash string is
    modelled: an identifier, a two-digit cost, 22 characters of salt and
    31 of checksum.  [verify] raises on a string it cannot identify or
    parse, and both [hash] and [verify] refuse a secret that is too long
    or holds a NUL character. *)

Module CryptContext.
Section WithDigest.

(** [bcrypt_digest config secret]: the 31-character checksum for the
    configuration prefix (identifier, cost, salt) and the secret. *)
Variable bcrypt_digest : string -> string -> string.

Definition idents : list string := ["$2$"; "$2a$"; "$2x$"; "$2y$"; "$2b$"]%string.

(** The alphabet of salt and checksum: [./A-Za-z0-9]. *)
Definition is_bcrypt64 (a : ascii) : bool :=
  let n := N_of_ascii a in
  ((46 <=? n) && (n <=? 57) || (65 <=? n) && (n <=? 90) ||
   (97 <=? n) && (n <=? 122))%N.

(** The identifier a hash starts with, and what follows it. *)
Definition identify (hash : string) : option (string * string) :=
  match List.find (fun i => String.prefix i hash) idents with
  | Some i => Some (i, String.substring (String.length i)
                         (String.length hash - String.length i) hash)
  | None => None
  end.

(** The cost written by two digits. *)
Definition cost (r1 r2 : ascii) : N :=
  (10 * (N_of_ascii r1 - 48) + (N_of_ascii r2 - 48))%N.

(** The value of a character of the alphabet: [.] is 0, [/] is 1, then
    the capitals, the small letters and the digits. *)
Definition bcrypt64_index (a : ascii) : N :=
  let n := N_of_ascii a in
  (if n =? 46 then 0
   else if n =? 47 then 1
   else if (65 <=? n) && (n <=? 90) then n - 63
   else if (97 <=? n) && (n <=? 122) then n - 69
   else n + 6)%N.

Definition bcrypt64_char (i : N) : ascii :=
  (if i =? 0 then "."%char
   else if i =? 1 then "/"%char
   else if i <? 28 then ascii_of_N (i + 63)
   else if i <? 54 then ascii_of_N (i + 69)
   else ascii_of_N (i - 6))%N.

(** [bcrypt64.repair_unused]: the bits of the last character that encode
    nothing are cleared; [mask] keeps the others. *)
Fixpoint repair_unused (mask : N) (s : string) : string :=
  match s with
  | EmptyString => EmptyString
  | String a EmptyString =>
      String (bcrypt64_char (N.land (bcrypt64_index a) mask)) EmptyString
  | String a r => String a (repair_unused mask r)
  end.

(** 22 characters of salt carry 128 bits: four bits of the last one are
    unused.  31 characters of checksum carry 184 bits: two are unused. *)
Definition repair_salt : string -> string := repair_unused 48.
Definition repair_checksum : string -> string := repair_unused 60.

(** The secret holds a NUL character. *)
Definition has_nul (secret : string) : bool :=
  existsb (Ascii.eqb Ascii.zero) (list_ascii_of_string secret).

(** [MAX_PASSWORD_SIZE] *)
Definition max_password_size : nat := 4096.

(** [len(secret.encode("utf-8"))] for a secret of code points below 256:
    one byte below 128, two from 128 on. *)
Fixpoint utf8_size (secret : string) : nat :=
  match secret with
  | EmptyString => 0
  | String a r => (if (N_of_ascii a <? 128)%N then 1 else 2) + utf8_size r
  end.

(** The configuration prefix and the checksum of a well-formed hash:
    a supported identifier, a two-digit cost between 4 and 31, and 53
    characters of the alphabet, 22 of salt and 31 of checksum, both with
    their unused bits repaired. *)
Definition parse (hash : string) : option (string * string) :=
  match identify hash with
  | Some (i, String r1 (String r2 (String d data))) =>
      if negb (String.eqb i "$2x$")
         && Py.is_digit r1 && Py.is_digit r2 && Ascii.eqb d "$"
         && (4 <=? cost r1 r2)%N && (cost r1 r2 <=? 31)%N
         && Nat.eqb (String.length data) 53
         && Py.all_chars is_bcrypt64 data
      then Some ((i ++ String r1 (String r2 (String d
                         (repair_salt (String.substring 0 22 data)))))%string,
                 repair_checksum (String.substring 22 31 data))
      else None
  | _ => None
  end.

(** A secret the scheme takes: not too long once encoded, and without
    NUL. *)
Definition accepts (secret : string) : bool :=
  negb (max_password_size <? utf8_size secret)%nat
  && negb (has_nul secret).

(** The shape of a bcrypt hash string, spelled out: an identifier other
    than [$2x$], a cost of two digits between 04 and 31, a [$], and 22
    characters of salt followed by 31 of checksum, all of the alphabet. *)
Definition well_formed (hash : string) : Prop :=
  exists (ident : string) (r1 r2 : ascii) (salt chk : string),
    hash = (ident ++ String r1 (String r2 (String "$" (salt ++ chk))))%string /\
    In ident ["$2$"; "$2a$"; "$2y$"; "$2b$"]%string /\
    Py.is_digit r1 = true /\ Py.is_digit r2 = true /\
    (4 <= cost r1 r2 <= 31)%N /\
    String.length salt = 22%nat /\ String.length chk = 31%nat /\
    Py.all_chars is_bcrypt64 salt = true /\
    Py.all_chars is_bcrypt64 chk = true.

(** [pwd_context.hash(secret)] with the salt the library drew: the
    secret's size is checked as given and again once encoded, then the
    secret is checked for NUL, before it is digested. *)
Definition hash (salt : string) (secret : string) : outcome string :=
  if (max_password_size <? String.length secret)%nat
  then Raise PasswordSizeError
  else if (max_password_size <? utf8_size secret)%nat
  then Raise PasswordSizeError
  else if has_nul secret then Raise PasswordValueError
  else
    let config := ("$2b$12$" ++ salt)%string in
    Ok (config ++ bcrypt_digest config secret)%string.

(** [pwd_context.verify(secret, hash)]: the hash is identified, the
    secret's size checked, the hash parsed, the encoded secret checked
    for its size and for NUL and digested, and the digest compared with
    the checksum. *)
Definition verify (secret : string) (hash : string) : outcome bool :=
  match identify hash with
  | None => Raise UnknownHashError
  | Some _ =>
      if (max_password_size <? String.length secret)%nat
      then Raise PasswordSizeError
      else
        match parse hash with
        | None => Raise ValueError
        | Some (config, chk) =>
            if (max_password_size <? utf8_size secret)%nat
            then Raise PasswordSizeError
            else if has_nul secret then Raise PasswordValueError
            else Ok (String.eqb (bcrypt_digest config secret) chk)
        end
  end.

End WithDigest.
End CryptContext.

(** ** User repository *)

Module UserRepository.

Definition get_by_email (db : DB) (email : string) : option User :=
  first_where (fun u => String.eqb (u_email u) email) (db_users db).

Definition get_by_id (db : DB) (user_id : Z) : option User :=
  first_where (fun u => u_id u =? user_id) (db_users db).

(** [create]: the UNIQUE constraint on [email] makes the commit fail
    with an [IntegrityError], which is rolled back and reported as
    [None]; otherwise the row is inserted, active by default. *)
Definition create (db : DB) (user_data : UserCreate)
           (hashed_password : string) : option User * DB :=
  if existsb (fun u => String.eqb (u_email u) (uc_email user_data))
             (db_users db)
  then (None, db)
  else
    let db_user := {| u_id := db_next_user db;
                      u_email := uc_email user_data;
                      u_hashed_password := hashed_password;
                      u_is_active := true |} in
    (Some db_user,
     {| db_users := db_users db ++ [db_user];
        db_posts := db_posts db;
        db_next_user := db_next_user db + 1;
        db_next_post := db_next_post db |}).

(** [user.is_active if user else False] *)
Definition is_active (user : option User) : bool :=
  match user with
  | Some u => u_is_active u
  | None => false
  end.

End UserRepository.

(** ** Authentication service *)

Module AuthService.
Section WithLibraries.

Variable bcrypt_digest : string -> string -> string.
Context {J : JWT}.

Definition verify_password (plain_password hashed_password : string)
  : outcome bool :=
  CryptContext.verify bcrypt_digest plain_password hashed_password.

Definition get_password_hash (salt password : string) : outcome string :=
  CryptContext.hash bcrypt_digest salt password.

(** [create_access_token(data)]; [utcnow] is the clock reading. *)
Definition create_access_token (data : gmap string claim) (utcnow : Z)
  : string :=
  let expire := utcnow + settings.ACCESS_TOKEN_EXPIRE_MINUTES * 60 in
  let to_encode := <["exp" := CInt expire]> data in
  jwt_encode to_encode settings.SECRET_KEY settings.ALGORITHM.

(** [verify_token(token)]: a [JWTError] is caught and reported as [None]. *)
Definition verify_token (token : string) (utcnow : Z)
  : option (gmap string claim) :=
  jwt_decode token settings.SECRET_KEY [settings.ALGORITHM] utcnow.

(** The [data] dict of both call sites:
    [{"sub": str(user.id), "email": user.email}]. *)
Definition token_data (user : User) : gmap string claim :=
  <["email" := CStr (u_email user)]> {["sub" := CStr (Py.str (u_id user))]}.

(** [signup]; [salt] is the salt drawn while hashing.  An exception of
    the hasher leaves the function before anything is stored. *)
Definition signup (db : DB) (user_data : UserCreate) (salt : string)
           (utcnow : Z) : outcome (option TokenResponse) * DB :=
  match UserRepository.get_by_email db (uc_email user_data) with
  | Some _ => (Ok None, db)
  | None =>
      match get_password_hash salt (uc_password user_data) with
      | Raise e => (Raise e, db)
      | Ok hashed_password =>
          match UserRepository.create db user_data hashed_password with
          | (None, db') => (Ok None, db')
          | (Some user, db') =>
              let access_token :=
                create_access_token (token_data user) utcnow in
              (Ok (Some (mk_TokenResponse access_token)), db')
          end
      end
  end.

(** [login] *)
Definition login (db : DB) (login_data : UserLogin) (utcnow : Z)
  : outcome (option TokenResponse) :=
  let user := UserRepository.get_by_email db (ul_email login_data) in
  match user with
  | None => Ok None
  | Some u =>
      if negb (UserRepository.is_active user) then Ok None
      else
        match verify_password (ul_password login_data)
                              (u_hashed_password u) with
        | Raise e => Raise e
        | Ok false => Ok None
        | Ok true =>
            let access_token := create_access_token (token_data u) utcnow in
            Ok (Some (mk_TokenResponse access_token))
        end
  end.

(** Python truth value of a claim: [not v] holds for [""] and [0]. *)
Definition truthy (v : claim) : bool :=
  match v with
  | CStr s => negb (String.eqb s "")
  | CInt z => negb (z =? 0)
  end.

(** [int(v)] on a claim; [None] is the [ValueError]. *)
Definition int_of_claim (v : claim) : option Z :=
  match v with
  | CStr s => Py.int s
  | CInt z => Some z
  end.

(** [get_current_user(token)] *)
Definition get_current_user (db : DB) (token : string) (utcnow : Z)
  : outcome (option User) :=
  match verify_token token utcnow with
  | None => Ok None
  | Some payload =>
      if bool_decide (payload = ∅) then Ok None
      else
        match payload !! "sub" with
        | None => Ok None
        | Some user_id =>
            if negb (truthy user_id) then Ok None
            else
              match int_of_claim user_id with
              | None => Raise ValueError
              | Some n =>
                  let user := UserRepository.get_by_id db n in
                  match user with
                  | None => Ok None
                  | Some u =>
                      if negb (UserRepository.is_active user) then Ok None
                      else Ok (Some u)
                  end
              end
        end
  end.

(** One sign-up request: the data, the salt drawn and the clock. *)
Definition signup_request : Type := UserCreate * string * Z.

(** The store after a run of sign-up requests. *)
Fixpoint signups (reqs : list signup_request) (db : DB) : DB :=
  match reqs with
  | [] => db
  | (user_data, salt, now) :: rest =>
      signups rest (snd (signup db user_data salt now))
  end.

End WithLibraries.

(** The fixed life time of a token, in seconds. *)
Definition token_ttl : Z := settings.ACCESS_TOKEN_EXPIRE_MINUTES * 60.

End AuthService.

(** ** Authentication controller and the bearer dependency *)

Module AuthController.
Section WithLibraries.

Variable bcrypt_digest : string -> string -> string.
Context {J : JWT}.

(** [signup] route *)
Definition signup (db : DB) (user_data : UserCreate) (salt : string)
           (utcnow : Z) : outcome (http TokenResponse) * DB :=
  match AuthService.signup bcrypt_digest db user_data salt utcnow with
  | (Raise e, db') => (Raise e, db')
  | (Ok None, db') =>
      (Ok (HTTPException 400
             "Email already registered or registration failed"), db')
  | (Ok (Some tok), db') => (Ok (Response 201 tok), db')
  end.

(** [login] route *)
Definition login (db : DB) (login_data : UserLogin) (utcnow : Z)
  : outcome (http TokenResponse) :=
  match AuthService.login bcrypt_digest db login_data utcnow with
  | Raise e => Raise e
  | Ok None => Ok (HTTPException 401 "Invalid email or password")
  | Ok (Some tok) => Ok (Response 200 tok)
  end.

End WithLibraries.
End AuthController.

Module AuthDependency.
Section WithLibraries.

Context {J : JWT}.

(** What the dependency hands to a protected route: the user, or the
    [HTTPException] with its status, detail and [WWW-Authenticate]
    header. *)
Inductive resolution : Type :=
| Authenticated (user : User)
| Challenge (status : Z) (detail : string) (www_authenticate : string).

(** [get_current_user(credentials, db)]: the dependency of every
    protected route. *)
Definition get_current_user (db : DB) (credentials : string) (utcnow : Z)
  : outcome resolution :=
  match AuthService.get_current_user db credentials utcnow with
  | Raise e => Raise e
  | Ok None => Ok (Challenge 401 "Invalid or expired token" "Bearer")
  | Ok (Some user) => Ok (Authenticated user)
  end.

End WithLibraries.
End AuthDependency.

(** ** Application middleware ([main.py]) *)

Module Main.

(** What the middleware does with a request: it hands it on, or it
    raises an [HTTPException]. *)
Inductive middleware_result : Type :=
| CallNext
| RaiseHTTPException (status : Z) (detail : string).

(** [limit_upload_size]: [method] is [request.method] and
    [content_length] is [request.headers.get("content-length")]. *)
Definition limit_upload_size (method : string) (content_length : option string)
  : outcome middleware_result :=
  if String.eqb method "POST" then
    match content_length with
    | None => Ok CallNext
    | Some v =>
        if String.eqb v "" then Ok CallNext
        else
          match Py.int_checked v with
          | None => Raise ValueError
          | Some n =>
              if n >? settings.MAX_PAYLOAD_SIZE
              then Ok (RaiseHTTPException 413
                         ("Request payload too large. Maximum size: "
                          ++ Py.str settings.MAX_PAYLOAD_SIZE ++ " bytes"))
              else Ok CallNext
          end
    end
  else Ok CallNext.

End Main.

(** ** Reference libraries for concrete runs

    A token codec that meets the [JWT] contract, and a stand-in digest.
    The codec writes the triple of claims, key and algorithm as a string
    of binary digits; decoding reads it back, compares key and algorithm
    and checks [exp]. *)

#[global] Instance claim_countable : Countable claim.
Proof.
  refine (inj_countable'
            (fun c => match c with CStr s => inl s | CInt z => inr z end)
            (fun x => match x with inl s => CStr s | inr z => CInt z end) _).
  intros []; reflexivity.
Defined.

Module Reference.

Fixpoint bits_of_pos (p : positive) : string :=
  match p with
  | xH => EmptyString
  | xO q => String "0" (bits_of_pos q)
  | xI q => String "1" (bits_of_pos q)
  end.

Fixpoint pos_of_bits (s : string) : option positive :=
  match s with
  | EmptyString => Some xH
  | String a r =>
      if Ascii.eqb a "0" then option_map xO (pos_of_bits r)
      else if Ascii.eqb a "1" then option_map xI (pos_of_bits r)
      else None
  end.

Definition encode_token (claims : gmap string claim) (key alg : string)
  : string :=
  bits_of_pos (encode (claims, key, alg)).

Definition parse_token (token : string)
  : option (gmap string claim * string * string) :=
  match pos_of_bits token with
  | Some p => decode p
  | None => None
  end.

Definition decode_token (token key : string) (algorithms : list string)
           (now : Z) : option (gmap string claim) :=
  match parse_token token with
  | Some (claims, k, a) =>
      if String.eqb k key && existsb (String.eqb a) algorithms
      then match claims !! "exp" with
           | Some (CInt e) => if e <? now then None else Some claims
           | Some (CStr _) => None
           | None => Some claims
           end
      else None
  | None => None
  end.


(** A stand-in for the bcrypt digest: 31 characters cut from the secret
    followed by padding. *)
Definition digest (config secret : string) : string :=
  String.substring 0 31 (secret ++ "...............................").

End Reference.

(** ** A small store for concrete runs *)

Module Fixture.

Definition alice : User :=
  {| u_id := 1; u_email := "a@x.com";
     u_hashed_password :=
       "$2b$12$LQv3c1yqBWVHxkd0LHAkCOYz6TtxMQJqhN8/LewdBPj/nVHcNkKmK";
     u_is_active := true |}.

Definition bob : User :=
  {| u_id := 2; u_email := "b@x.com";
     u_hashed_password :=
       "$2b$12$LQv3c1yqBWVHxkd0LHAkCOYz6TtxMQJqhN8/LewdBPj/nVHcNkKmK";
     u_is_active := true |}.

Definition carol : User :=
  {| u_id := 3; u_email := "c@x.com";
     u_hashed_password :=
       "$2b$12$LQv3c1yqBWVHxkd0LHAkCOYz6TtxMQJqhN8/LewdBPj/nVHcNkKmK";
     u_is_active := false |}.

(** "hello" *)
Definition hello : list N := [104; 101; 108; 108; 111]%N.

Definition hello_post : Post :=
  {| p_id := 1; p_text := hello; p_user_id := 1;
     p_created_at := 50; p_updated_at := 50 |}.

Definition hello_response : PostResponse :=
  {| pr_id := 1; pr_text := hello; pr_user_id := 1;
     pr_created_at := 50; pr_updated_at := 50 |}.

Definition store : DB :=
  {| db_users := [alice; bob; carol]; db_posts := [hello_post];
     db_next_user := 4; db_next_post := 2 |}.

Definition listing (c : bool) : PostsListResponse :=
  {| posts := [hello_response]; total := 1; cached := c |}.

End Fixture.

(** * Properties *)

(** ** The reference codec meets the contract *)

Module ReferenceJWT.
Import Reference.

Lemma pos_of_bits_of_pos p : pos_of_bits (bits_of_pos p) = Some p.
Proof. induction p as [q IH|q IH|]; simpl; rewrite ?IH; reflexivity. Qed.

Lemma parse_encode_token claims key alg :
  parse_token (encode_token claims key alg) = Some (claims, key, alg).
Proof.
  unfold parse_token, encode_token. rewrite pos_of_bits_of_pos.
  apply decode_encode.
Qed.

Lemma decode_encode_token sub email exp key now :
  decode_token (encode_token (access_claims sub email exp) key "HS256")
               key ["HS256"%string] now
  = if exp <? now then None else Some (access_claims sub email exp).
Proof.
  unfold decode_token. rewrite parse_encode_token.
  rewrite String.eqb_refl. simpl.
  unfold access_claims. rewrite lookup_insert_eq. reflexivity.
Qed.

Definition jwt : JWT :=
  {| jwt_encode := encode_token;
     jwt_decode := decode_token;
     jwt_decode_encode := decode_encode_token |}.

End ReferenceJWT.

(** ** Python primitives on examples *)

Example str_42 : Py.str 42 = "42"%string. Proof. reflexivity. Qed.
Example str_neg : Py.str (-7) = "-7"%string. Proof. reflexivity. Qed.
Example int_42 : Py.int " +4_2 " = Some 42. Proof. reflexivity. Qed.
Example int_abc : Py.int "abc" = None. Proof. reflexivity. Qed.
Example int_empty : Py.int "" = None. Proof. reflexivity. Qed.
Example int_blank : Py.int " " = None. Proof. reflexivity. Qed.
Example int_us : Py.int "1__0" = None. Proof. reflexivity. Qed.
Example strip_ex : Py.strip [32; 104; 105; 9; 10]%N = [104; 105]%N.
Proof. reflexivity. Qed.

(** ** Post text validation *)

Section TextValidation.

Lemma isspace_scalar c : Py.isspace c = true -> Py.is_scalar c = true.
Proof.
  unfold Py.isspace, Py.is_scalar. intros H.
  destruct (N.ltb_spec c 55296) as [|Hge]; [reflexivity|].
  exfalso.
  repeat match type of H with
         | (_ || _)%bool = true => apply orb_true_iff in H; destruct H as [H|H]
         | (_ && _)%bool = true => apply andb_true_iff in H; destruct H as [? H]
         end;
    repeat match goal with
           | h : (_ <=? _)%N = true |- _ => apply N.leb_le in h
           | h : (_ =? _)%N = true |- _ => apply N.eqb_eq in h
           end; lia.
Qed.

Lemma utf8_width_bounds c : 1 <= Py.utf8_width c <= 4.
Proof. unfold Py.utf8_width. repeat case_match; lia. Qed.

Lemma utf8_len_scalar (s : list N) :
  Forall (fun c => Py.is_scalar c = true) s ->
  exists n, Py.utf8_len s = Some n /\ 0 <= n <= 4 * Py.len s.
Proof.
  unfold Py.len. induction 1 as [|c r Hc _ IH]; simpl.
  - exists 0. split; [reflexivity | lia].
  - destruct IH as (n & -> & Hn). rewrite Hc.
    exists (Py.utf8_width c + n). split; [reflexivity|].
    pose proof (utf8_width_bounds c). lia.
Qed.

Lemma utf8_len_Some_scalar (s : list N) n :
  Py.utf8_len s = Some n -> Forall (fun c => Py.is_scalar c = true) s.
Proof.
  revert n. induction s as [|c r IH]; simpl; intros n H; [constructor|].
  destruct (Py.is_scalar c) eqn:Hc; [|discriminate].
  destruct (Py.utf8_len r) as [m|] eqn:Hr; [|discriminate].
  constructor; [assumption | eapply IH; reflexivity].
Qed.

Lemma lstrip_suffix (s : list N) : exists k, s = k ++ Py.lstrip s.
Proof.
  induction s as [|c r [k Hk]]; simpl.
  - exists []. reflexivity.
  - destruct (Py.isspace c).
    + exists (c :: k). simpl. congruence.
    + exists []. reflexivity.
Qed.

Lemma strip_infix (s : list N) : exists k1 k2, s = k1 ++ Py.strip s ++ k2.
Proof.
  unfold Py.strip, Py.rstrip.
  destruct (lstrip_suffix s) as [k1 H1].
  destruct (lstrip_suffix (rev (Py.lstrip s))) as [k2 H2].
  exists k1, (rev k2).
  rewrite <- rev_app_distr, <- H2, rev_involutive. exact H1.
Qed.

Lemma lstrip_blank (s : list N) :
  Forall (fun c => Py.isspace c = true) s -> Py.lstrip s = [].
Proof. induction 1 as [|c r Hc _ IH]; simpl; [|rewrite Hc]; auto. Qed.

Lemma strip_blank (s : list N) :
  Forall (fun c => Py.isspace c = true) s -> Py.strip s = [].
Proof.
  intros H. unfold Py.strip, Py.rstrip. rewrite (lstrip_blank s H).
  reflexivity.
Qed.

(** What [parse_PostCreate] accepts, spelled out. *)
Lemma parse_PostCreate_Some raw pc :
  parse_PostCreate raw = Some pc ->
  1 <= Py.len raw <= 10000 /\
  (exists n, Py.utf8_len raw = Some n /\ n <= 1024 * 1024) /\
  pc_text pc = Py.strip raw.
Proof.
  unfold parse_PostCreate, text_field_ok, validate_text_size.
  destruct (1 <=? Py.len raw) eqn:H1; simpl; [|discriminate].
  destruct (Py.len raw <=? 10000) eqn:H2; simpl; [|discriminate].
  destruct (Py.utf8_len raw) as [n|] eqn:Hn; simpl; [|discriminate].
  destruct (n >? 1024 * 1024) eqn:H3; simpl; [discriminate|].
  intros [= <-]. repeat split; try lia.
  exists n. split; [reflexivity | lia].
Qed.

Lemma parse_PostCreate_accepts raw :
  1 <= Py.len raw <= 10000 ->
  Forall (fun c => Py.is_scalar c = true) raw ->
  parse_PostCreate raw = Some {| pc_text := Py.strip raw |}.
Proof.
  intros Hlen Hsc.
  destruct (utf8_len_scalar raw Hsc) as (n & Hn & Hb).
  unfold parse_PostCreate, text_field_ok, validate_text_size.
  rewrite Hn.
  replace (1 <=? Py.len raw) with true by (symmetry; apply Z.leb_le; lia).
  replace (Py.len raw <=? 10000) with true by (symmetry; apply Z.leb_le; lia).
  simpl.
  replace (n >? 1024 * 1024) with false; [reflexivity|].
  symmetry. rewrite Z.gtb_ltb. apply Z.ltb_ge. lia.
Qed.

End TextValidation.

(** C8. Post text validation accepts a (well-formed Unicode) text of
    exactly 10,000 characters, rejects every text of 10,001 characters
    and rejects the empty string; every accepted text, both as submitted
    and as kept after trimming, has a UTF-8 size of at most 1,048,576
    bytes. *)
Theorem C8_text_length_boundaries :
  (forall raw : list N,
      Py.len raw = 10000 ->
      Forall (fun c => Py.is_scalar c = true) raw ->
      exists pc, parse_PostCreate raw = Some pc) /\
  (forall raw : list N,
      Py.len raw = 10001 -> parse_PostCreate raw = None) /\
  parse_PostCreate [] = None /\
  (forall (raw : list N) pc,
      parse_PostCreate raw = Some pc ->
      exists n m,
        Py.utf8_len raw = Some n /\ n <= 1048576 /\
        Py.utf8_len (pc_text pc) = Some m /\ m <= 1048576).
Proof.
  repeat split.
  - intros raw Hlen Hsc. eexists. apply parse_PostCreate_accepts; [|exact Hsc].
    rewrite Hlen. lia.
  - intros raw Hlen. unfold parse_PostCreate, text_field_ok.
    rewrite Hlen. reflexivity.
  - intros raw pc H.
    destruct (parse_PostCreate_Some raw pc H) as ([_ Hmax] & (n & Hn & Hb) & Ht).
    pose proof (utf8_len_Some_scalar raw n Hn) as Hsc.
    destruct (strip_infix raw) as (k1 & k2 & Hk).
    assert (Hsc' : Forall (fun c => Py.is_scalar c = true) (Py.strip raw)).
    { rewrite Hk in Hsc. apply Forall_app in Hsc as [_ Hsc].
      apply Forall_app in Hsc as [Hsc _]. exact Hsc. }
    destruct (utf8_len_scalar _ Hsc') as (m & Hm & Hmb).
    exists n, m. rewrite Ht. repeat split; try assumption; try lia.
    assert (Py.len (Py.strip raw) <= Py.len raw).
    { unfold Py.len. rewrite Hk at 2. rewrite !length_app. lia. }
    lia.
Qed.

Lemma C8_text_length_boundaries_witness :
  (exists pc, parse_PostCreate (repeat 97%N (Z.to_nat 10000)) = Some pc) /\
  parse_PostCreate (repeat 97%N (Z.to_nat 10001)) = None /\
  (exists n m,
      Py.utf8_len [32; 104; 105]%N = Some n /\ n <= 1048576 /\
      Py.utf8_len (pc_text {| pc_text := [104; 105]%N |}) = Some m /\
      m <= 1048576).
Proof.
  destruct C8_text_length_boundaries as (Hacc & Hrej & _ & Hsize).
  split; [|split].
  - apply Hacc.
    + vm_compute. reflexivity.
    + apply List.Forall_forall. intros c Hc. apply repeat_spec in Hc.
      subst c. reflexivity.
  - apply Hrej. vm_compute. reflexivity.
  - apply (Hsize [32; 104; 105]%N). vm_compute. reflexivity.
Defined.

(** C10 as stated fails on a blank text longer than the field allows:
    10,001 spaces are whitespace only, of length at least 1, and are
    rejected. *)
Lemma C10_counterexample :
  let raw := repeat 32%N (Z.to_nat 10001) in
  1 <= Py.len raw /\
  Forall (fun c => Py.isspace c = true) raw /\
  parse_PostCreate raw = None.
Proof.
  cbv zeta. split; [|split].
  - unfold Py.len. rewrite repeat_length. lia.
  - apply List.Forall_forall. intros c Hc. apply repeat_spec in Hc.
    subst c. reflexivity.
  - unfold parse_PostCreate, text_field_ok, Py.len.
    rewrite repeat_length, Z2Nat.id by lia. reflexivity.
Qed.

(** C10 (amended). The 1 to 10,000 character bound and the 1 MB byte bound
    are checked on the untrimmed input and only then is it stripped: every
    input of 1 to 10,000 characters that are all whitespace is accepted,
    the text handed on is the empty string, and the repository stores
    that empty text as the new post's body. *)
Theorem C10_blank_text_stored_empty :
  forall (raw : list N) (db : DB) (user_id now : Z),
    1 <= Py.len raw <= 10000 ->
    Forall (fun c => Py.isspace c = true) raw ->
    exists pc post db',
      parse_PostCreate raw = Some pc /\
      pc_text pc = [] /\
      PostRepository.create db pc user_id now true = (Some post, db') /\
      p_text post = [] /\
      PostRepository.get_by_id db' (p_id post) <> None /\
      In post (db_posts db').
Proof.
  intros raw db user_id now Hlen Hsp.
  assert (Hacc : parse_PostCreate raw = Some {| pc_text := [] |}).
  { rewrite <- (strip_blank raw Hsp). apply parse_PostCreate_accepts.
    - exact Hlen.
    - eapply Forall_impl; [exact Hsp|]. intros c. apply isspace_scalar. }
  eexists _, _, _. split; [exact Hacc|]. split; [reflexivity|].
  split; [reflexivity|]. split; [reflexivity|]. split.
  - unfold PostRepository.get_by_id, first_where. simpl.
    intros Hnone.
    eapply find_none in Hnone; [|apply in_or_app; right; left; reflexivity].
    simpl in Hnone. rewrite Z.eqb_refl in Hnone. discriminate.
  - simpl. apply in_or_app. right. left. reflexivity.
Qed.

Lemma C10_blank_text_stored_empty_witness :
  exists pc post db',
    parse_PostCreate [32; 9; 10]%N = Some pc /\
    pc_text pc = [] /\
    PostRepository.create empty_db pc 1 0 true = (Some post, db') /\
    p_text post = [] /\
    PostRepository.get_by_id db' (p_id post) <> None /\
    In post (db_posts db').
Proof.
  apply (C10_blank_text_stored_empty [32; 9; 10]%N empty_db 1 0).
  - vm_compute. split; discriminate.
  - repeat constructor.
Defined.

(** ** Listing posts: the response and the cache *)

Section Listing.

Implicit Types (self : PostService.t) (d : DB).

Lemma fetch_user_posts_spec self user_id now :
  match PostService.fetch_user_posts self user_id now with
  | (Ok resp, s) =>
      cached resp = false /\ total resp = Py.len (posts resp) /\
      comprehension from_orm
        (PostRepository.get_user_posts (PostService.db self) user_id)
      = Ok (posts resp) /\
      PostService.db s = PostService.db self /\
      PostService._cache s
      = <[PostService.cache_key user_id := (posts resp, now)]>
          (PostService._cache self)
  | (Raise _, s) => s = self
  end.
Proof.
  unfold PostService.fetch_user_posts.
  destruct (comprehension from_orm _) as [rs|e]; simpl; auto.
Qed.

(** One service object, two listings: a listing that had to fetch leaves
    a snapshot that answers the next listing while it is younger than
    300 seconds. *)
Lemma service_second_listing_cached self user_id t1 t2 r1 s1 :
  PostService.get_user_posts self user_id t1 = (Ok r1, s1) ->
  cached r1 = false ->
  t2 - t1 < 300 ->
  PostService.get_user_posts s1 user_id t2
  = (Ok {| posts := posts r1; total := total r1; cached := true |}, s1).
Proof.
  intros Hfirst Hmiss Httl.
  assert (Hfetch : PostService.fetch_user_posts self user_id t1 = (Ok r1, s1)).
  { revert Hfirst. unfold PostService.get_user_posts.
    destruct (PostService._cache self !! _) as [[cd ct]|]; [|auto].
    destruct (t1 - ct <? 300); [|auto].
    intros [= <- <-]. discriminate. }
  pose proof (fetch_user_posts_spec self user_id t1) as Hspec.
  rewrite Hfetch in Hspec. destruct Hspec as (_ & Htot & _ & _ & Hc).
  unfold PostService.get_user_posts. rewrite Hc, lookup_insert_eq.
  replace (t2 - t1 <? 300) with true by (symmetry; apply Z.ltb_lt; lia).
  rewrite Htot. reflexivity.
Qed.

(** A successful write removes the writer's snapshot, so the same service
    object fetches again on the next listing. *)
Lemma service_create_invalidates self post_data user_id now r s :
  PostService.create_post self post_data user_id now true = (Some r, s) ->
  PostService._cache s !! PostService.cache_key user_id = None /\
  forall t, PostService.get_user_posts s user_id t
            = PostService.fetch_user_posts s user_id t.
Proof.
  unfold PostService.create_post. simpl. intros [= <- <-].
  assert (H : PostService.invalidate (PostService._cache self) user_id
              !! PostService.cache_key user_id = None)
    by apply lookup_delete_eq.
  split; [exact H|]. intros t. unfold PostService.get_user_posts. simpl.
  rewrite H. reflexivity.
Qed.

Lemma service_delete_invalidates self post_id user_id ok r s :
  PostService.delete_post self post_id user_id ok = (Some r, s) ->
  PostService._cache s !! PostService.cache_key user_id = None.
Proof.
  unfold PostService.delete_post.
  destruct (PostRepository.get_by_id _ _) as [post|]; [|discriminate].
  destruct (negb _); [discriminate|].
  destruct ok; simpl; [|discriminate].
  intros [= <- <-]. simpl. apply lookup_delete_eq.
Qed.

(** The route builds its service object afresh, so its cache is empty
    when the listing runs: the answer is never taken from a snapshot. *)
Lemma get_posts_never_cached d current_user now status resp d' :
  PostController.get_posts d current_user now = (Ok (Response status resp), d') ->
  cached resp = false /\ d' = d.
Proof.
  unfold PostController.get_posts, PostService.get_user_posts. simpl.
  rewrite lookup_empty.
  pose proof (fetch_user_posts_spec (PostService.init d)
                (u_id current_user) now) as Hspec.
  destruct (PostService.fetch_user_posts _ _ _) as [[r|e] s]; [|discriminate].
  destruct Hspec as (Hc & _ & _ & Hdb & _).
  intros [= <- <- <-]. split; [exact Hc | exact Hdb].
Qed.

End Listing.



(** ** [int(str(n))] and the cache keys *)

Section IntStr.


Lemma all_chars_impl (P Q : ascii -> bool) s :
  (forall a, P a = true -> Q a = true) ->
  Py.all_chars P s = true -> Py.all_chars Q s = true.
Proof.
  intros HPQ. induction s as [|a r IH]; simpl; [reflexivity|].
  intros [Ha Hr]%andb_true_iff. rewrite (HPQ a Ha), (IH Hr). reflexivity.
Qed.

Lemma digit_plain a : Py.is_digit a = true -> Py.plain a = true.
Proof.
  unfold Py.is_digit, Py.plain, Py.ascii_isspace.
  intros [H1 H2]%andb_true_iff.
  apply N.leb_le in H1. apply N.leb_le in H2.
  assert (Ha : a = ascii_of_N (N_of_ascii a)) by (symmetry; apply ascii_N_embedding).
  remember (N_of_ascii a) as n eqn:Hn. clear Hn.
  assert (Hcases : (n = 48 \/ n = 49 \/ n = 50 \/ n = 51 \/ n = 52 \/
                    n = 53 \/ n = 54 \/ n = 55 \/ n = 56 \/ n = 57)%N) by lia.
  repeat (destruct Hcases as [-> | Hcases]; [subst a; reflexivity|]).
  subst n a. reflexivity.
Qed.

Lemma string_of_uint_digits d :
  Py.all_chars Py.is_digit (NilEmpty.string_of_uint d) = true.
Proof. induction d; simpl; auto. Qed.

Lemma lstrip_s_plain s : Py.all_chars Py.plain s = true -> Py.lstrip_s s = s.
Proof.
  destruct s as [|a r]; simpl; [reflexivity|].
  unfold Py.plain. intros [[Ha _]%andb_true_iff _]%andb_true_iff.
  apply negb_true_iff in Ha. rewrite Ha. reflexivity.
Qed.

Lemma rstrip_s_plain s : Py.all_chars Py.plain s = true -> Py.rstrip_s s = s.
Proof.
  induction s as [|a r IH]; simpl; [reflexivity|].
  intros [Ha Hr]%andb_true_iff. rewrite (IH Hr).
  destruct r; [|reflexivity].
  unfold Py.plain in Ha. apply andb_true_iff in Ha as [Ha _].
  apply negb_true_iff in Ha. rewrite Ha. reflexivity.
Qed.

Lemma ungroup_plain b s :
  Py.all_chars Py.plain s = true -> (b = true \/ s <> EmptyString) ->
  Py.ungroup b s = Some s.
Proof.
  revert b. induction s as [|a r IH]; simpl; intros b Hs Hb.
  - destruct Hb as [-> | Hne]; [reflexivity | congruence].
  - apply andb_true_iff in Hs as [Ha Hr].
    unfold Py.plain in Ha. apply andb_true_iff in Ha as [_ Ha].
    apply negb_true_iff in Ha. rewrite Ha.
    rewrite (IH true Hr) by (left; reflexivity). reflexivity.
Qed.

Lemma unsigned_of_string_of_uint d :
  d <> Decimal.Nil ->
  Py.unsigned_of_string (NilEmpty.string_of_uint d) = Some (Z.of_uint d).
Proof.
  intros Hd. unfold Py.unsigned_of_string.
  assert (Hplain : Py.all_chars Py.plain (NilEmpty.string_of_uint d) = true)
    by (eapply all_chars_impl; [apply digit_plain | apply string_of_uint_digits]).
  rewrite ungroup_plain; [|exact Hplain|].
  - pose proof (NilZero.usu d Hd) as Hu.
    destruct d; try congruence; simpl in *; rewrite Hu; reflexivity.
  - right. destruct d; simpl; congruence.
Qed.

(** [int(str(n)) == n] *)
Lemma int_str (n : Z) : Py.int (Py.str n) = Some n.
Proof.
  destruct n as [|p|p]; [reflexivity| |].
  - unfold Py.str, Py.int. simpl Z.to_int. simpl NilZero.string_of_int.
    pose proof (DecimalPos.Unsigned.to_uint_nonnil p) as Hnn.
    assert (Hs : NilZero.string_of_uint (Pos.to_uint p)
                 = NilEmpty.string_of_uint (Pos.to_uint p))
      by (destruct (Pos.to_uint p); congruence || reflexivity).
    rewrite Hs.
    assert (Hplain : Py.all_chars Py.plain (NilEmpty.string_of_uint (Pos.to_uint p)) = true)
      by (eapply all_chars_impl; [apply digit_plain | apply string_of_uint_digits]).
    unfold Py.strip_s. rewrite lstrip_s_plain, rstrip_s_plain by assumption.
    pose proof (unsigned_of_string_of_uint _ Hnn) as Hu.
    pose proof (string_of_uint_digits (Pos.to_uint p)) as Hdig.
    destruct (NilEmpty.string_of_uint (Pos.to_uint p)) as [|a r] eqn:E.
    + destruct (Pos.to_uint p); simpl in E; congruence.
    + simpl in Hdig. apply andb_true_iff in Hdig as [Ha _].
      assert (Ascii.eqb a "-" = false /\ Ascii.eqb a "+" = false) as [-> ->].
      { split; apply Ascii.eqb_neq; intros ->; discriminate. }
      rewrite Hu. f_equal. unfold Z.of_uint.
      rewrite DecimalPos.Unsigned.of_to. reflexivity.
  - unfold Py.str, Py.int. simpl Z.to_int. simpl NilZero.string_of_int.
    pose proof (DecimalPos.Unsigned.to_uint_nonnil p) as Hnn.
    assert (Hs : NilZero.string_of_uint (Pos.to_uint p)
                 = NilEmpty.string_of_uint (Pos.to_uint p))
      by (destruct (Pos.to_uint p); congruence || reflexivity).
    rewrite Hs.
    assert (Hplain : Py.all_chars Py.plain
                       (String "-" (NilEmpty.string_of_uint (Pos.to_uint p))) = true).
    { simpl.
      eapply all_chars_impl; [apply digit_plain | apply string_of_uint_digits]. }
    unfold Py.strip_s. rewrite lstrip_s_plain, rstrip_s_plain by assumption.
    simpl. rewrite (unsigned_of_string_of_uint _ Hnn). simpl. f_equal.
    unfold Z.of_uint. rewrite DecimalPos.Unsigned.of_to. reflexivity.
Qed.

Lemma str_inj (m n : Z) : Py.str m = Py.str n -> m = n.
Proof.
  intros H. apply (f_equal Py.int) in H. rewrite !int_str in H. congruence.
Qed.

(** Distinct users have distinct cache keys. *)
Lemma cache_key_inj (m n : Z) :
  PostService.cache_key m = PostService.cache_key n -> m = n.
Proof.
  unfold PostService.cache_key. intros H. apply str_inj.
  cbn [String.append] in H. injection H as H. exact H.
Qed.

End IntStr.

(** ** Tokens and identity resolution *)

Section Tokens.

Context {J : JWT}.


Lemma verify_issued (sub email : string) (issued now : Z) :
  AuthService.verify_token
    (AuthService.create_access_token
       (<["email" := CStr email]> {["sub" := CStr sub]}) issued) now
  = if issued + AuthService.token_ttl <? now then None
    else Some (access_claims sub email (issued + AuthService.token_ttl)).
Proof.
  unfold AuthService.verify_token, AuthService.create_access_token.
  apply (jwt_decode_encode sub email (issued + AuthService.token_ttl)).
Qed.

(** C3. A token issued for an account id and an e-mail address verifies,
    as long as the fixed life time of 30 minutes has not run out, to a
    claim set whose subject is that id (written in decimal, and read back
    by [int] as the id); once the life time has run out verification
    answers [None]. *)
Theorem C3_token_round_trip (id : Z) (email : string) (issued verified : Z) :
  let token :=
    AuthService.create_access_token
      (<["email" := CStr email]> {["sub" := CStr (Py.str id)]}) issued in
  (verified <= issued + AuthService.token_ttl ->
   exists payload,
     AuthService.verify_token token verified = Some payload /\
     payload !! "sub" = Some (CStr (Py.str id)) /\
     AuthService.int_of_claim (CStr (Py.str id)) = Some id /\
     payload !! "exp" = Some (CInt (issued + AuthService.token_ttl))) /\
  (issued + AuthService.token_ttl < verified ->
   AuthService.verify_token token verified = None).
Proof.
  cbv zeta. rewrite verify_issued. split.
  - intros Hlive.
    replace (issued + AuthService.token_ttl <? verified) with false
      by (symmetry; apply Z.ltb_ge; lia).
    eexists. split; [reflexivity|].
    unfold access_claims. split; [|split].
    + rewrite lookup_insert_ne, lookup_insert_ne by discriminate.
      apply lookup_singleton_eq.
    + simpl. apply int_str.
    + apply lookup_insert_eq.
  - intros Hdead.
    replace (issued + AuthService.token_ttl <? verified) with true
      by (symmetry; apply Z.ltb_lt; lia).
    reflexivity.
Qed.

(** Where identity resolution answers: every failed verification, every
    claim set without a usable subject, and every numeric subject that
    names no active account gives [None]. *)
Lemma get_current_user_rejects (db : DB) (token : string) (now : Z) :
  (AuthService.verify_token token now = None ->
   AuthService.get_current_user db token now = Ok None) /\
  (forall payload,
      AuthService.verify_token token now = Some payload ->
      payload !! "sub" = None ->
      AuthService.get_current_user db token now = Ok None) /\
  (forall payload v n,
      AuthService.verify_token token now = Some payload ->
      payload !! "sub" = Some v ->
      AuthService.int_of_claim v = Some n ->
      (UserRepository.get_by_id db n = None \/
       exists u, UserRepository.get_by_id db n = Some u /\
                 u_is_active u = false) ->
      AuthService.get_current_user db token now = Ok None).
Proof.
  unfold AuthService.get_current_user. repeat split.
  - intros ->. reflexivity.
  - intros payload -> Hsub. rewrite Hsub. case_bool_decide; reflexivity.
  - intros payload v n -> Hsub Hint Hno. rewrite Hsub, Hint.
    case_bool_decide; [reflexivity|].
    destruct (negb (AuthService.truthy v)); [reflexivity|].
    destruct Hno as [-> | (u & -> & Hu)]; [reflexivity|].
    simpl. rewrite Hu. reflexivity.
Qed.

(** The lookup goes by the subject alone: two verified claim sets with
    the same subject resolve alike, whatever else they carry. *)
Lemma get_current_user_by_subject (db : DB) (t1 t2 : string) (now : Z) p1 p2 :
  AuthService.verify_token t1 now = Some p1 ->
  AuthService.verify_token t2 now = Some p2 ->
  p1 !! "sub" = p2 !! "sub" ->
  AuthService.get_current_user db t1 now
  = AuthService.get_current_user db t2 now.
Proof.
  unfold AuthService.get_current_user. intros -> -> Hsub.
  rewrite <- Hsub.
  destruct (p1 !! "sub") as [v|] eqn:E.
  - do 2 (case_bool_decide; subst; try (rewrite lookup_empty in *; discriminate)).
    reflexivity.
  - do 2 case_bool_decide; reflexivity.
Qed.

(** Whoever is resolved is an active account whose id is the subject. *)
Lemma get_current_user_sound (db : DB) (token : string) (now : Z) (u : User) :
  AuthService.get_current_user db token now = Ok (Some u) ->
  exists payload v,
    AuthService.verify_token token now = Some payload /\
    payload !! "sub" = Some v /\
    AuthService.int_of_claim v = Some (u_id u) /\
    In u (db_users db) /\ u_is_active u = true.
Proof.
  unfold AuthService.get_current_user.
  destruct (AuthService.verify_token token now) as [payload|]; [|discriminate].
  case_bool_decide; [discriminate|].
  destruct (payload !! "sub") as [v|] eqn:Hsub; [|discriminate].
  destruct (negb (AuthService.truthy v)); [discriminate|].
  destruct (AuthService.int_of_claim v) as [n|] eqn:Hint; [|discriminate].
  destruct (UserRepository.get_by_id db n) as [u'|] eqn:Hu; [|discriminate].
  simpl. destruct (u_is_active u') eqn:Hact; simpl; [|discriminate].
  intros [= ->]. exists payload, v.
  unfold UserRepository.get_by_id, first_where in Hu.
  apply find_some in Hu as [Hin Hid]. apply Z.eqb_eq in Hid.
  rewrite Hid. repeat split; assumption.
Qed.

(** C6 (failing input). A token that verifies and whose subject is the
    string "abc" makes identity resolution raise [ValueError] instead of
    answering [None]: the conversion [int(user_id)] is not guarded.  The
    exception passes through the bearer dependency as well. *)
Theorem C6_non_numeric_subject_raises (db : DB) (email : string)
        (exp now : Z) :
  now <= exp ->
  let token :=
    jwt_encode (access_claims "abc" email exp)
               settings.SECRET_KEY settings.ALGORITHM in
  AuthService.verify_token token now = Some (access_claims "abc" email exp) /\
  AuthService.get_current_user db token now = Raise ValueError /\
  AuthDependency.get_current_user db token now = Raise ValueError.
Proof.
  intros Hlive. cbv zeta.
  assert (Hv : AuthService.verify_token
                 (jwt_encode (access_claims "abc" email exp)
                             settings.SECRET_KEY settings.ALGORITHM) now
               = Some (access_claims "abc" email exp)).
  { unfold AuthService.verify_token.
    rewrite (jwt_decode_encode "abc" email exp).
    replace (exp <? now) with false by (symmetry; apply Z.ltb_ge; lia).
    reflexivity. }
  assert (Hg : AuthService.get_current_user db
                 (jwt_encode (access_claims "abc" email exp)
                             settings.SECRET_KEY settings.ALGORITHM) now
               = Raise ValueError).
  { unfold AuthService.get_current_user. rewrite Hv.
    case_bool_decide as Hempty.
    - apply (f_equal (fun m : gmap string claim => m !! "exp")) in Hempty.
      unfold access_claims in Hempty.
      rewrite lookup_insert_eq, lookup_empty in Hempty. discriminate.
    - unfold access_claims.
      rewrite lookup_insert_ne, lookup_insert_ne by discriminate.
      rewrite lookup_singleton_eq. reflexivity. }
  split; [exact Hv|]. split; [exact Hg|].
  unfold AuthDependency.get_current_user. rewrite Hg. reflexivity.
Qed.

End Tokens.

Lemma C3_token_round_trip_witness :
  let token :=
    AuthService.create_access_token (J := ReferenceJWT.jwt)
      (<["email" := CStr "a@x.com"]> {["sub" := CStr (Py.str 1)]}) 1000 in
  (exists payload,
     AuthService.verify_token (J := ReferenceJWT.jwt) token 2000 = Some payload /\
     payload !! "sub" = Some (CStr (Py.str 1)) /\
     AuthService.int_of_claim (CStr (Py.str 1)) = Some 1 /\
     payload !! "exp" = Some (CInt (1000 + AuthService.token_ttl))) /\
  AuthService.verify_token (J := ReferenceJWT.jwt) token 2801 = None.
Proof.
  cbv zeta. split.
  - apply (C3_token_round_trip (J := ReferenceJWT.jwt) 1 "a@x.com" 1000 2000).
    vm_compute. discriminate.
  - apply (C3_token_round_trip (J := ReferenceJWT.jwt) 1 "a@x.com" 1000 2801).
    vm_compute. reflexivity.
Defined.

Lemma C6_non_numeric_subject_raises_witness :
  let token :=
    jwt_encode (JWT := ReferenceJWT.jwt) (access_claims "abc" "a@x.com" 5000)
               settings.SECRET_KEY settings.ALGORITHM in
  AuthService.verify_token (J := ReferenceJWT.jwt) token 1000
  = Some (access_claims "abc" "a@x.com" 5000) /\
  AuthService.get_current_user (J := ReferenceJWT.jwt) Fixture.store token 1000
  = Raise ValueError /\
  AuthDependency.get_current_user (J := ReferenceJWT.jwt) Fixture.store token 1000
  = Raise ValueError.
Proof.
  apply (C6_non_numeric_subject_raises (J := ReferenceJWT.jwt)
           Fixture.store "a@x.com" 5000 1000).
  vm_compute. discriminate.
Defined.

(** ** Deleting a post *)

Section Deleting.

Lemma get_by_id_In (db : DB) (post_id : Z) (post : Post) :
  PostRepository.get_by_id db post_id = Some post ->
  In post (db_posts db) /\ p_id post = post_id.
Proof.
  unfold PostRepository.get_by_id, first_where. intros H.
  apply find_some in H as [Hin Hid]. apply Z.eqb_eq in Hid. auto.
Qed.

Lemma get_user_posts_In (db : DB) (post : Post) :
  In post (db_posts db) ->
  In post (PostRepository.get_user_posts db (p_user_id post)).
Proof.
  intros Hin. unfold PostRepository.get_user_posts.
  apply list_elem_of_In. rewrite merge_sort_Permutation.
  apply list_elem_of_In, filter_In. split; [exact Hin | apply Z.eqb_refl].
Qed.

(** C4. Deleting answers [None] (not found) both when no post has the
    given id and when the post belongs to somebody else; in both cases
    the service object is left as it was and the route answers with one
    and the same 404.  The foreign post is still found by id and still
    listed for its owner afterwards. *)
Theorem C4_delete_absent_or_foreign
        (self : PostService.t) (post_id requester_id : Z) (commit_ok : bool) :
  (PostRepository.get_by_id (PostService.db self) post_id = None ->
   PostService.delete_post self post_id requester_id commit_ok = (None, self)) /\
  (forall post,
      PostRepository.get_by_id (PostService.db self) post_id = Some post ->
      p_user_id post <> requester_id ->
      let '(result, self') :=
        PostService.delete_post self post_id requester_id commit_ok in
      result = None /\ self' = self /\
      PostRepository.get_by_id (PostService.db self') post_id = Some post /\
      In post (PostRepository.get_user_posts (PostService.db self')
                 (p_user_id post))) /\
  (forall (d : DB) (current_user : User),
      u_id current_user = requester_id ->
      PostService.db self = d ->
      (PostRepository.get_by_id d post_id = None \/
       exists post, PostRepository.get_by_id d post_id = Some post /\
                    p_user_id post <> requester_id) ->
      PostController.delete_post d post_id current_user commit_ok
      = (HTTPException 404
           "Post not found or you don't have permission to delete it", d)).
Proof.
  split; [|split].
  - intros Habs. unfold PostService.delete_post. rewrite Habs. reflexivity.
  - intros post Hget Hown. unfold PostService.delete_post. rewrite Hget.
    simpl. replace (p_user_id post =? requester_id) with false
      by (symmetry; apply Z.eqb_neq; exact Hown).
    simpl. repeat split; [exact Hget|].
    apply get_user_posts_In. apply (get_by_id_In _ _ _ Hget).
  - intros d current_user Hu Hd Hcase.
    unfold PostController.delete_post, PostService.delete_post. simpl.
    destruct Hcase as [Habs | (post & Hget & Hown)].
    + rewrite Habs. reflexivity.
    + rewrite Hget. simpl. rewrite Hu.
      replace (p_user_id post =? requester_id) with false
        by (symmetry; apply Z.eqb_neq; exact Hown).
      reflexivity.
Qed.

End Deleting.

Lemma C4_delete_absent_or_foreign_witness :
  PostService.delete_post (PostService.init Fixture.store) 99 2 true
  = (None, PostService.init Fixture.store) /\
  (let '(result, self') :=
     PostService.delete_post (PostService.init Fixture.store) 1 2 true in
   result = None /\ self' = PostService.init Fixture.store /\
   PostRepository.get_by_id (PostService.db self') 1 = Some Fixture.hello_post /\
   In Fixture.hello_post
      (PostRepository.get_user_posts (PostService.db self')
         (p_user_id Fixture.hello_post))) /\
  PostController.delete_post Fixture.store 1 Fixture.bob true
  = (HTTPException 404
       "Post not found or you don't have permission to delete it",
     Fixture.store) /\
  PostController.delete_post Fixture.store 99 Fixture.bob true
  = (HTTPException 404
       "Post not found or you don't have permission to delete it",
     Fixture.store).
Proof.
  split; [|split; [|split]].
  - apply (C4_delete_absent_or_foreign (PostService.init Fixture.store) 99 2 true).
    vm_compute. reflexivity.
  - apply (proj1 (proj2 (C4_delete_absent_or_foreign
                           (PostService.init Fixture.store) 1 2 true))
             Fixture.hello_post).
    + vm_compute. reflexivity.
    + vm_compute. discriminate.
  - apply (proj2 (proj2 (C4_delete_absent_or_foreign
                           (PostService.init Fixture.store) 1 2 true))).
    + reflexivity.
    + reflexivity.
    + right. exists Fixture.hello_post. split.
      * vm_compute. reflexivity.
      * vm_compute. discriminate.
  - apply (proj2 (proj2 (C4_delete_absent_or_foreign
                           (PostService.init Fixture.store) 99 2 true))).
    + reflexivity.
    + reflexivity.
    + left. vm_compute. reflexivity.
Defined.

(** ** One service object: the cache never lags behind the store

    The operations of one [PostService] object, run one after the other
    on the same object, keep every snapshot equal to what a fetch from
    the present store would give. *)

Section CacheCoherence.

Implicit Types (self : PostService.t) (d : DB).



Lemma create_other_user d post_data user_id now post d' other :
  PostRepository.create d post_data user_id now true = (Some post, d') ->
  other <> user_id ->
  PostRepository.get_user_posts d' other = PostRepository.get_user_posts d other.
Proof.
  unfold PostRepository.create. intros [= <- <-] Hne.
  unfold PostRepository.get_user_posts. simpl.
  rewrite List.filter_app. simpl.
  replace (user_id =? other) with false
    by (symmetry; apply Z.eqb_neq; congruence).
  rewrite app_nil_r. reflexivity.
Qed.

Lemma filter_filter_id {A} (f g : A -> bool) (l : list A) :
  (forall x, In x l -> f x = true -> g x = true) ->
  List.filter f (List.filter g l) = List.filter f l.
Proof.
  induction l as [|a r IH]; simpl; intros H; [reflexivity|].
  destruct (g a) eqn:Hg; simpl.
  - destruct (f a); rewrite IH; auto.
  - destruct (f a) eqn:Hf.
    + rewrite (H a (or_introl eq_refl) Hf) in Hg. discriminate.
    + apply IH. auto.
Qed.

Lemma NoDup_map_id_eq (l : list Post) (p q : Post) :
  NoDup (map p_id l) -> In p l -> In q l -> p_id p = p_id q -> p = q.
Proof.
  induction l as [|a r IH]; simpl; [tauto|].
  intros Hnd%NoDup_cons [-> | Hp] [-> | Hq] Heq; destruct Hnd as [Hnotin Hnd].
  - reflexivity.
  - exfalso. apply Hnotin. rewrite Heq. apply list_elem_of_In, in_map, Hq.
  - exfalso. apply Hnotin. rewrite <- Heq. apply list_elem_of_In, in_map, Hp.
  - auto.
Qed.

Lemma delete_other_user d post d' other :
  db_wf d -> In post (db_posts d) ->
  PostRepository.delete d post true = (true, d') ->
  other <> p_user_id post ->
  PostRepository.get_user_posts d' other = PostRepository.get_user_posts d other.
Proof.
  intros [Hnd _] Hin. unfold PostRepository.delete. intros [= <-] Hne.
  unfold PostRepository.get_user_posts. simpl. f_equal.
  apply filter_filter_id. intros q Hq Hown.
  apply negb_true_iff, Z.eqb_neq. intros Hid.
  apply Z.eqb_eq in Hown.
  assert (q = post) by (eapply NoDup_map_id_eq; eauto). subst q. congruence.
Qed.

Lemma db_wf_create d post_data user_id now ok :
  db_wf d ->
  db_wf (snd (PostRepository.create d post_data user_id now ok)).
Proof.
  intros [Hnd Hlt]. unfold PostRepository.create.
  destruct ok; simpl; [|split; assumption]. split; simpl.
  - rewrite map_app. simpl. apply NoDup_app. split; [exact Hnd|]. split.
    + intros x Hx [<-|[]]%list_elem_of_In.
      apply list_elem_of_In, in_map_iff in Hx as (p & Hp & Hin).
      rewrite List.Forall_forall in Hlt. specialize (Hlt p Hin). lia.
    + apply NoDup_singleton.
  - apply Forall_app. split.
    + eapply Forall_impl; [exact Hlt|]. simpl. intros; lia.
    + constructor; [simpl; lia | constructor].
Qed.

Lemma db_wf_delete d post ok :
  db_wf d -> db_wf (snd (PostRepository.delete d post ok)).
Proof.
  intros [Hnd Hlt]. unfold PostRepository.delete.
  destruct ok; simpl; [|split; assumption]. split; simpl.
  - clear Hlt. induction (db_posts d) as [|a r IH]; simpl; [constructor|].
    simpl in Hnd. apply NoDup_cons in Hnd as [Hnotin Hnd].
    destruct (negb (p_id a =? p_id post)); simpl; [|auto].
    apply NoDup_cons. split; [|auto].
    intros Hin. apply Hnotin.
    apply list_elem_of_In, in_map_iff in Hin as (q & Hq & Hin).
    apply filter_In in Hin as [Hin _].
    apply list_elem_of_In. rewrite <- Hq. apply in_map. exact Hin.
  - rewrite List.Forall_forall in *. intros q Hq.
    apply filter_In in Hq as [Hq _]. auto.
Qed.

Lemma step_db_wf self op : db_wf (PostService.db self) ->
                           db_wf (PostService.db (PostService.step self op)).
Proof.
  intros Hwf. destruct op as [pd uid now ok | uid now | pid uid ok]; simpl.
  - unfold PostService.create_post.
    pose proof (db_wf_create (PostService.db self) pd uid now ok Hwf) as H.
    destruct (PostRepository.create _ _ _ _ _) as [[post|] d']; exact H.
  - unfold PostService.get_user_posts.
    pose proof (fetch_user_posts_spec self uid now) as Hf.
    destruct (PostService._cache self !! _) as [[cd ct]|];
      [destruct (now - ct <? 300); [exact Hwf|]|];
      (destruct (PostService.fetch_user_posts _ _ _) as [[r|e] s]; simpl;
       [destruct Hf as (_ & _ & _ & -> & _); exact Hwf | subst s; exact Hwf]).
  - unfold PostService.delete_post.
    destruct (PostRepository.get_by_id _ _) as [post|]; [|exact Hwf].
    destruct (negb _); [exact Hwf|].
    pose proof (db_wf_delete (PostService.db self) post ok Hwf) as H.
    destruct (PostRepository.delete _ _ _) as [[|] d']; exact H.
Qed.

Lemma step_coherent self op :
  db_wf (PostService.db self) -> PostService.coherent self -> PostService.coherent (PostService.step self op).
Proof.
  intros Hwf Hco. destruct op as [pd uid now ok | uid now | pid uid ok]; simpl.
  - unfold PostService.create_post.
    destruct ok; [|exact Hco].
    destruct (PostRepository.create _ _ _ _ true) as [[post|] d'] eqn:Hc;
      [|discriminate Hc || (unfold PostRepository.create in Hc; discriminate)].
    simpl. intros other snap t Hlook. simpl in *.
    unfold PostService.invalidate in Hlook.
    destruct (decide (other = uid)) as [->|Hne].
    + rewrite lookup_delete_eq in Hlook. discriminate.
    + rewrite lookup_delete_ne in Hlook
        by (intros Hk; apply cache_key_inj in Hk; congruence).
      rewrite (create_other_user _ _ _ _ _ _ other Hc Hne). eauto.
  - unfold PostService.get_user_posts.
    pose proof (fetch_user_posts_spec self uid now) as Hf.
    assert (Hfetch : PostService.coherent (snd (PostService.fetch_user_posts self uid now))).
    { destruct (PostService.fetch_user_posts _ _ _) as [[r|e] s]; simpl;
        [|subst s; exact Hco].
      destruct Hf as (_ & _ & Hposts & Hdb & Hcache).
      intros other snap t. rewrite Hcache, Hdb.
      destruct (decide (other = uid)) as [->|Hne].
      - rewrite lookup_insert_eq. intros [= <- <-]. exact Hposts.
      - rewrite lookup_insert_ne
          by (intros Hk; apply cache_key_inj in Hk; congruence).
        apply Hco. }
    destruct (PostService._cache self !! _) as [[cd ct]|];
      [destruct (now - ct <? 300); [exact Hco | exact Hfetch] | exact Hfetch].
  - unfold PostService.delete_post.
    destruct (PostRepository.get_by_id _ _) as [post|] eqn:Hget; [|exact Hco].
    simpl. destruct (p_user_id post =? uid) eqn:Hown; simpl; [|exact Hco].
    apply Z.eqb_eq in Hown.
    destruct ok; [|exact Hco]. simpl.
    intros other snap t Hlook. simpl in *.
    unfold PostService.invalidate in Hlook.
    destruct (decide (other = uid)) as [->|Hne].
    + rewrite lookup_delete_eq in Hlook. discriminate.
    + rewrite lookup_delete_ne in Hlook
        by (intros Hk; apply cache_key_inj in Hk; congruence).
      erewrite (delete_other_user (PostService.db self) post _ other Hwf);
        [eauto | apply (get_by_id_In _ _ _ Hget) | reflexivity | congruence].
Qed.

Lemma run_invariant ops self :
  db_wf (PostService.db self) -> PostService.coherent self ->
  db_wf (PostService.db (PostService.run ops self)) /\ PostService.coherent (PostService.run ops self).
Proof.
  unfold PostService.run. revert self. induction ops as [|op rest IH]; simpl; intros self Hwf Hco.
  - auto.
  - apply IH; [apply step_db_wf | apply step_coherent]; assumption.
Qed.

(** After any run of operations on a freshly built service object, a
    listing that returns gives exactly the posts a fetch from the present
    store gives, whether it was answered from the cache or not. *)
Lemma service_listing_fresh d ops user_id now resp :
  db_wf d ->
  let self := PostService.run ops (PostService.init d) in
  fst (PostService.get_user_posts self user_id now) = Ok resp ->
  comprehension from_orm
    (PostRepository.get_user_posts (PostService.db self) user_id)
  = Ok (posts resp).
Proof.
  intros Hwf self.
  assert (Hinv : PostService.coherent self).
  { apply run_invariant; [exact Hwf|]. intros u s t. simpl.
    rewrite lookup_empty. discriminate. }
  unfold PostService.get_user_posts.
  pose proof (fetch_user_posts_spec self user_id now) as Hf.
  destruct (PostService._cache self !! _) as [[cd ct]|] eqn:Hlook.
  - destruct (now - ct <? 300).
    + simpl. intros [= <-]. simpl. eapply Hinv. exact Hlook.
    + destruct (PostService.fetch_user_posts _ _ _) as [[r|e] s]; simpl;
        [|discriminate]. intros [= <-]. tauto.
  - destruct (PostService.fetch_user_posts _ _ _) as [[r|e] s]; simpl;
      [|discriminate]. intros [= <-]. tauto.
Qed.

End CacheCoherence.

(** C9. In every response of the listing, from the cache or freshly
    fetched, from the service or through the route, [total] is the length
    of [posts]. *)
Theorem C9_total_is_length_of_posts :
  (forall (self : PostService.t) (user_id now : Z) resp,
      fst (PostService.get_user_posts self user_id now) = Ok resp ->
      total resp = Py.len (posts resp)) /\
  (forall (d : DB) (current_user : User) (now : Z) status resp,
      fst (PostController.get_posts d current_user now)
      = Ok (Response status resp) ->
      total resp = Py.len (posts resp)).
Proof.
  assert (Hsvc : forall (self : PostService.t) (user_id now : Z) resp,
             fst (PostService.get_user_posts self user_id now) = Ok resp ->
             total resp = Py.len (posts resp)).
  { intros self user_id now resp. unfold PostService.get_user_posts.
    pose proof (fetch_user_posts_spec self user_id now) as Hspec.
    destruct (PostService._cache self !! _) as [[cd ct]|].
    - destruct (now - ct <? 300).
      + simpl. intros [= <-]. reflexivity.
      + destruct (PostService.fetch_user_posts _ _ _) as [[r|e] s];
          simpl; [|discriminate]. intros [= <-]. tauto.
    - destruct (PostService.fetch_user_posts _ _ _) as [[r|e] s];
        simpl; [|discriminate]. intros [= <-]. tauto. }
  split; [exact Hsvc|].
  intros d current_user now status resp. unfold PostController.get_posts.
  specialize (Hsvc (PostService.init d) (u_id current_user) now).
  destruct (PostService.get_user_posts _ _ _) as [[r|e] s];
    simpl in *; [|discriminate].
  intros [= <- <-]. apply Hsvc. reflexivity.
Qed.

Lemma C9_total_is_length_of_posts_witness :
  total (Fixture.listing true) = Py.len (posts (Fixture.listing true)) /\
  total (Fixture.listing false) = Py.len (posts (Fixture.listing false)).
Proof.
  destruct C9_total_is_length_of_posts as [Hsvc Hroute]. split.
  - apply (Hsvc {| PostService.db := Fixture.store;
                   PostService._cache :=
                     {[ PostService.cache_key 1
                        := ([Fixture.hello_response], 100) ]} |}
                1 200).
    vm_compute. reflexivity.
  - apply (Hroute Fixture.store Fixture.alice 200 200).
    vm_compute. reflexivity.
Defined.

(** C1 (the cache is lost between requests). Two consecutive
    [GET /posts] requests of the same user, one second apart and with no
    write in between, both answer [cached = false]: the second listing is
    fetched again although the first one took its snapshot a second
    earlier.  Within a single service object the same two calls answer
    [cached = false] and then [cached = true]. *)
Theorem C1_second_request_not_cached :
  PostController.get_posts Fixture.store Fixture.alice 100
  = (Ok (Response 200 (Fixture.listing false)), Fixture.store) /\
  PostController.get_posts Fixture.store Fixture.alice 101
  = (Ok (Response 200 (Fixture.listing false)), Fixture.store) /\
  (let s0 := PostService.init Fixture.store in
   let '(r1, s1) := PostService.get_user_posts s0 1 100 in
   let '(r2, s2) := PostService.get_user_posts s1 1 101 in
   r1 = Ok (Fixture.listing false) /\ r2 = Ok (Fixture.listing true)).
Proof. vm_compute. repeat split. Qed.


(** ** Signing up and logging in *)

Section Accounts.

Variable bcrypt_digest : string -> string -> string.
Context {J : JWT}.


Lemma find_email_existsb (users : list User) (email : string) :
  List.find (fun u => String.eqb (u_email u) email) users = None <->
  existsb (fun u => String.eqb (u_email u) email) users = false.
Proof.
  induction users as [|u r IH]; simpl; [tauto|].
  destruct (String.eqb (u_email u) email); simpl; [split; discriminate | exact IH].
Qed.

Lemma find_app_l {A} (f : A -> bool) (l l' : list A) (x : A) :
  List.find f l = Some x -> List.find f (l ++ l') = Some x.
Proof.
  induction l as [|a r IH]; simpl; [discriminate|].
  destruct (f a); [auto | exact IH].
Qed.

Lemma find_app_fresh {A} (f : A -> bool) (l : list A) (x : A) :
  List.find f l = None -> f x = true -> List.find f (l ++ [x]) = Some x.
Proof.
  induction l as [|a r IH]; simpl; intros Hn Hx.
  - rewrite Hx. reflexivity.
  - destruct (f a); [discriminate | auto].
Qed.


Lemma signup_registered (db : DB) (user_data : UserCreate) (salt : string) (now : Z) :
  UserRepository.get_by_email db (uc_email user_data) <> None ->
  AuthService.signup bcrypt_digest db user_data salt now = (Ok None, db).
Proof.
  unfold AuthService.signup.
  destruct (UserRepository.get_by_email db (uc_email user_data));
    [reflexivity | congruence].
Qed.

Lemma length_le_utf8_size (secret : string) :
  (String.length secret <= CryptContext.utf8_size secret)%nat.
Proof.
  induction secret as [|a r IH]; simpl; [lia|].
  destruct (N_of_ascii a <? 128)%N; lia.
Qed.


(** What an accepted secret passes: both size checks and the NUL check. *)
Lemma accepts_checks (secret : string) :
  CryptContext.accepts secret = true ->
  (CryptContext.max_password_size <? String.length secret)%nat = false /\
  (CryptContext.max_password_size <? CryptContext.utf8_size secret)%nat = false /\
  CryptContext.has_nul secret = false.
Proof.
  unfold CryptContext.accepts. intros [Hsize Hnul]%andb_true_iff.
  apply negb_true_iff in Hsize. apply negb_true_iff in Hnul.
  split; [|split; assumption].
  apply Nat.ltb_ge. apply Nat.ltb_ge in Hsize.
  pose proof (length_le_utf8_size secret). lia.
Qed.


Lemma hash_accepted (salt secret : string) :
  CryptContext.accepts secret = true ->
  AuthService.get_password_hash bcrypt_digest salt secret
  = Ok (("$2b$12$" ++ salt)
        ++ bcrypt_digest ("$2b$12$" ++ salt) secret)%string.
Proof.
  intros (Hlen & Hsize & Hnul)%accepts_checks.
  unfold AuthService.get_password_hash, CryptContext.hash.
  rewrite Hlen, Hsize, Hnul. reflexivity.
Qed.

Lemma hash_refused (salt secret : string) :
  CryptContext.accepts secret = false ->
  AuthService.get_password_hash bcrypt_digest salt secret
  = Raise PasswordSizeError \/
  AuthService.get_password_hash bcrypt_digest salt secret
  = Raise PasswordValueError.
Proof.
  unfold CryptContext.accepts, AuthService.get_password_hash, CryptContext.hash.
  destruct (CryptContext.max_password_size <? String.length secret)%nat;
    [left; reflexivity|].
  destruct (CryptContext.max_password_size <? CryptContext.utf8_size secret)%nat;
    [left; reflexivity|].
  destruct (CryptContext.has_nul secret); [right; reflexivity | discriminate].
Qed.

Lemma signup_fresh (db : DB) (user_data : UserCreate) (salt : string) (now : Z) :
  UserRepository.get_by_email db (uc_email user_data) = None ->
  CryptContext.accepts (uc_password user_data) = true ->
  let user := {| u_id := db_next_user db;
                 u_email := uc_email user_data;
                 u_hashed_password :=
                   (("$2b$12$" ++ salt)
                    ++ bcrypt_digest ("$2b$12$" ++ salt)
                         (uc_password user_data))%string;
                 u_is_active := true |} in
  AuthService.signup bcrypt_digest db user_data salt now
  = (Ok (Some (mk_TokenResponse
                 (AuthService.create_access_token
                    (AuthService.token_data user) now))),
     {| db_users := db_users db ++ [user];
        db_posts := db_posts db;
        db_next_user := db_next_user db + 1;
        db_next_post := db_next_post db |}).
Proof.
  intros Hfree Hacc. cbv zeta. unfold AuthService.signup.
  rewrite Hfree, (hash_accepted salt _ Hacc).
  unfold UserRepository.create.
  unfold UserRepository.get_by_email, first_where in Hfree.
  apply find_email_existsb in Hfree. rewrite Hfree. reflexivity.
Qed.

(** A sign-up refused by the hasher raises and stores nothing. *)
Lemma signup_refused_secret (db : DB) (user_data : UserCreate)
      (salt : string) (now : Z) :
  UserRepository.get_by_email db (uc_email user_data) = None ->
  CryptContext.accepts (uc_password user_data) = false ->
  AuthService.signup bcrypt_digest db user_data salt now
  = (Raise PasswordSizeError, db) \/
  AuthService.signup bcrypt_digest db user_data salt now
  = (Raise PasswordValueError, db).
Proof.
  intros Hfree Hacc. unfold AuthService.signup. rewrite Hfree.
  destruct (hash_refused salt _ Hacc) as [-> | ->]; [left | right]; reflexivity.
Qed.

(** The store after a sign-up: as before, or with the one new account. *)
Lemma signup_store (db : DB) (user_data : UserCreate) (salt : string) (now : Z) :
  snd (AuthService.signup bcrypt_digest db user_data salt now) = db \/
  (UserRepository.get_by_email db (uc_email user_data) = None /\
   exists h,
     snd (AuthService.signup bcrypt_digest db user_data salt now)
     = {| db_users := db_users db
                      ++ [{| u_id := db_next_user db;
                             u_email := uc_email user_data;
                             u_hashed_password := h;
                             u_is_active := true |}];
          db_posts := db_posts db;
          db_next_user := db_next_user db + 1;
          db_next_post := db_next_post db |}).
Proof.
  destruct (UserRepository.get_by_email db (uc_email user_data)) as [u|] eqn:E.
  - left. rewrite signup_registered by congruence. reflexivity.
  - destruct (CryptContext.accepts (uc_password user_data)) eqn:Hacc.
    + right. split; [reflexivity|].
      rewrite (signup_fresh db user_data salt now E Hacc). eexists. reflexivity.
    + left. destruct (signup_refused_secret db user_data salt now E Hacc)
        as [-> | ->]; reflexivity.
Qed.




(** Logging in answers [None] (unauthorized) exactly when no account has
    the address, or the account is inactive, or the password check
    returns false, and the route answers 401 in exactly these cases. *)
Lemma login_unauthorized_cases (db : DB) (login_data : UserLogin) (now : Z) :
  (AuthService.login bcrypt_digest db login_data now = Ok None <->
   UserRepository.get_by_email db (ul_email login_data) = None \/
   (exists u, UserRepository.get_by_email db (ul_email login_data) = Some u /\
              u_is_active u = false) \/
   (exists u, UserRepository.get_by_email db (ul_email login_data) = Some u /\
              AuthService.verify_password bcrypt_digest
                (ul_password login_data) (u_hashed_password u) = Ok false)) /\
  (AuthService.login bcrypt_digest db login_data now = Ok None <->
   AuthController.login bcrypt_digest db login_data now
   = Ok (HTTPException 401 "Invalid email or password")).
Proof.
  split.
  - unfold AuthService.login.
    destruct (UserRepository.get_by_email db (ul_email login_data)) as [u|].
    + simpl. destruct (u_is_active u) eqn:Hact; simpl.
      * destruct (AuthService.verify_password _ _ _) as [[|]|e] eqn:Hv.
        -- split; [discriminate|].
           intros [? | [(u' & [= <-] & ?) | (u' & [= <-] & ?)]]; congruence.
        -- split; [|reflexivity]. intros _. right. right. eauto.
        -- split; [discriminate|].
           intros [? | [(u' & [= <-] & ?) | (u' & [= <-] & ?)]]; congruence.
      * split; [|reflexivity]. intros _. right. left. eauto.
    + split; [|reflexivity]. intros _. left. reflexivity.
  - unfold AuthController.login.
    destruct (AuthService.login bcrypt_digest db login_data now) as [[tok|]|e];
      split; intros H; try discriminate H; reflexivity.
Qed.

(** C5 (failing input). On a registered, active account a password that
    holds a NUL character does not verify, yet logging in does not answer
    unauthorized: the hasher's [PasswordValueError] leaves [login] and
    the route uncaught, while the same password on an address that is not
    registered gets the 401.  The two failure causes are told apart. *)
Theorem C5_login_nul_password_raises (db : DB) (login_data : UserLogin)
        (u : User) (now : Z) :
  UserRepository.get_by_email db (ul_email login_data) = Some u ->
  u_is_active u = true ->
  CryptContext.parse (u_hashed_password u) <> None ->
  (CryptContext.utf8_size (ul_password login_data) <= 4096)%nat ->
  CryptContext.has_nul (ul_password login_data) = true ->
  AuthService.login bcrypt_digest db login_data now = Raise PasswordValueError /\
  AuthController.login bcrypt_digest db login_data now
  = Raise PasswordValueError /\
  (forall other,
      UserRepository.get_by_email db other = None ->
      AuthController.login bcrypt_digest db
        {| ul_email := other; ul_password := ul_password login_data |} now
      = Ok (HTTPException 401 "Invalid email or password")).
Proof.
  intros Hget Hact Hparse Hsize Hnul.
  assert (Hl : AuthService.login bcrypt_digest db login_data now
               = Raise PasswordValueError).
  { unfold AuthService.login. rewrite Hget. simpl. rewrite Hact. simpl.
    unfold AuthService.verify_password, CryptContext.verify.
    destruct (CryptContext.parse (u_hashed_password u)) as [[config chk]|] eqn:Hp;
      [|congruence].
    assert (Hid : CryptContext.identify (u_hashed_password u) <> None).
    { unfold CryptContext.parse in Hp.
      destruct (CryptContext.identify _); discriminate. }
    destruct (CryptContext.identify (u_hashed_password u)); [|congruence].
    replace (CryptContext.max_password_size
             <? String.length (ul_password login_data))%nat with false
      by (symmetry; apply Nat.ltb_ge;
          pose proof (length_le_utf8_size (ul_password login_data));
          unfold CryptContext.max_password_size; lia).
    replace (CryptContext.max_password_size
             <? CryptContext.utf8_size (ul_password login_data))%nat with false
      by (symmetry; apply Nat.ltb_ge; exact Hsize).
    rewrite Hnul. reflexivity. }
  split; [exact Hl|]. split.
  - unfold AuthController.login. rewrite Hl. reflexivity.
  - intros other Hnone. unfold AuthController.login, AuthService.login.
    simpl. rewrite Hnone. reflexivity.
Qed.

End Accounts.

(** A password of eight characters, with a letter and a digit, that ends
    in a NUL character. *)
Definition nul_password : string :=
  ("pass123" ++ String Ascii.zero EmptyString)%string.



Lemma C5_login_nul_password_raises_witness :
  let nul := String Ascii.zero EmptyString in
  AuthService.login Reference.digest (J := ReferenceJWT.jwt) Fixture.store
    {| ul_email := "a@x.com"; ul_password := nul |} 1000
  = Raise PasswordValueError /\
  AuthController.login Reference.digest (J := ReferenceJWT.jwt) Fixture.store
    {| ul_email := "a@x.com"; ul_password := nul |} 1000
  = Raise PasswordValueError /\
  (forall other,
      UserRepository.get_by_email Fixture.store other = None ->
      AuthController.login Reference.digest (J := ReferenceJWT.jwt) Fixture.store
        {| ul_email := other; ul_password := nul |} 1000
      = Ok (HTTPException 401 "Invalid email or password")).
Proof.
  apply (C5_login_nul_password_raises Reference.digest (J := ReferenceJWT.jwt)
           Fixture.store
           {| ul_email := "a@x.com";
              ul_password := String Ascii.zero EmptyString |}
           Fixture.alice 1000).
  - vm_compute. reflexivity.
  - reflexivity.
  - vm_compute. discriminate.
  - simpl. lia.
  - vm_compute. reflexivity.
Defined.

(** ** Checking a password against a hash *)

Section HashFormat.

Lemma prefix_empty (s : string) : String.prefix "" s = true.
Proof. destruct s; reflexivity. Qed.

Lemma substring_0_length (s : string) :
  String.substring 0 (String.length s) s = s.
Proof. induction s as [|c s IH]; simpl; [reflexivity | rewrite IH; reflexivity]. Qed.

Lemma substring_0_append (a b : string) :
  String.substring 0 (String.length a) (a ++ b) = a.
Proof.
  induction a as [|c a IH]; simpl.
  - destruct b; reflexivity.
  - rewrite IH. reflexivity.
Qed.

Lemma substring_skip_append (a b : string) (n : nat) :
  String.substring (String.length a) n (a ++ b) = String.substring 0 n b.
Proof. induction a as [|c a IH]; simpl; [reflexivity | exact IH]. Qed.

Lemma length_append (a b : string) :
  String.length (a ++ b) = (String.length a + String.length b)%nat.
Proof. induction a as [|c a IH]; simpl; [reflexivity | rewrite IH; reflexivity]. Qed.

Lemma all_chars_append (P : ascii -> bool) (a b : string) :
  Py.all_chars P (a ++ b) = Py.all_chars P a && Py.all_chars P b.
Proof.
  induction a as [|c a IH]; simpl; [reflexivity|].
  rewrite IH. apply andb_assoc.
Qed.




Lemma identify_append (i rest : string) :
  In i CryptContext.idents ->
  CryptContext.identify (i ++ rest) = Some (i, rest).
Proof.
  intros Hin.
  assert (Hsub : String.substring (String.length i)
                   (String.length (i ++ rest) - String.length i) (i ++ rest)
                 = rest).
  { rewrite length_append, Nat.add_comm, Nat.add_sub, substring_skip_append.
    apply substring_0_length. }
  unfold CryptContext.identify.
  assert (Hfind : List.find (fun j => String.prefix j (i ++ rest))
                            CryptContext.idents = Some i);
    [|rewrite Hfind, Hsub; reflexivity].
  clear Hsub.
  unfold CryptContext.idents in *. simpl in Hin.
  destruct Hin as [<- | [<- | [<- | [<- | [<- | []]]]]];
    unfold List.find;
    repeat match goal with
           | |- context [String.prefix ?j (?k ++ rest)] =>
               first [ replace (String.prefix j (k ++ rest)) with true
                         by (destruct rest; reflexivity)
                     | replace (String.prefix j (k ++ rest)) with false
                         by (destruct rest; reflexivity) ]
           end;
    reflexivity.
Qed.



Lemma parse_well_formed (ident : string) (r1 r2 : ascii) (salt chk : string) :
  In ident ["$2$"; "$2a$"; "$2y$"; "$2b$"]%string ->
  Py.is_digit r1 = true -> Py.is_digit r2 = true ->
  (4 <= CryptContext.cost r1 r2 <= 31)%N ->
  String.length salt = 22%nat -> String.length chk = 31%nat ->
  Py.all_chars CryptContext.is_bcrypt64 salt = true ->
  Py.all_chars CryptContext.is_bcrypt64 chk = true ->
  CryptContext.parse
    (ident ++ String r1 (String r2 (String "$" (salt ++ chk))))
  = Some ((ident ++ String r1 (String r2 (String "$"
                       (CryptContext.repair_salt salt))))%string,
          CryptContext.repair_checksum chk).
Proof.
  intros Hin Hd1 Hd2 [Hc1 Hc2] Hsalt Hchk Ha1 Ha2.
  unfold CryptContext.parse.
  rewrite identify_append
    by (unfold CryptContext.idents; simpl in Hin; simpl; tauto).
  assert (Hx : String.eqb ident "$2x$" = false).
  { simpl in Hin. destruct Hin as [<- | [<- | [<- | [<- | []]]]]; reflexivity. }
  rewrite Hx, Hd1, Hd2. simpl negb. simpl andb.
  replace (4 <=? CryptContext.cost r1 r2)%N with true
    by (symmetry; apply N.leb_le; exact Hc1).
  replace (CryptContext.cost r1 r2 <=? 31)%N with true
    by (symmetry; apply N.leb_le; exact Hc2).
  rewrite length_append, Hsalt, Hchk, all_chars_append, Ha1, Ha2.
  simpl andb. cbn [Nat.add Nat.eqb].
  pose proof (substring_0_append salt chk) as Hs1. rewrite Hsalt in Hs1.
  pose proof (substring_skip_append salt chk (String.length chk)) as Hs2.
  rewrite substring_0_length, Hsalt, Hchk in Hs2.
  rewrite Hs1, Hs2. reflexivity.
Qed.


End HashFormat.

Section PasswordCheck.

Variable bcrypt_digest : string -> string -> string.

(** What [verify_password] does in each case. *)
Lemma verify_password_cases (plain_password hashed_password : string) :
  AuthService.verify_password bcrypt_digest plain_password hashed_password
  = match CryptContext.identify hashed_password with
    | None => Raise UnknownHashError
    | Some _ =>
        if (CryptContext.max_password_size
            <? String.length plain_password)%nat
        then Raise PasswordSizeError
        else match CryptContext.parse hashed_password with
             | None => Raise ValueError
             | Some (config, chk) =>
                 if (CryptContext.max_password_size
                     <? CryptContext.utf8_size plain_password)%nat
                 then Raise PasswordSizeError
                 else if CryptContext.has_nul plain_password
                 then Raise PasswordValueError
                 else Ok (String.eqb (bcrypt_digest config plain_password) chk)
             end
    end.
Proof. reflexivity. Qed.


End PasswordCheck.



(** ** A run through the routes

    Sign up, resolve the token, add the post "hello", list twice, delete,
    list again.  Every listing is a fetch. *)
Example scenario_through_routes :
  let new_user := {| uc_email := "a@x.com"; uc_password := "pass1234" |} in
  match AuthController.signup Reference.digest (J := ReferenceJWT.jwt)
          empty_db new_user "NaClNaClNaClNaClNaClNu" 0 with
  | (Ok (Response 201 tok), db1) =>
      match AuthDependency.get_current_user (J := ReferenceJWT.jwt)
              db1 (token tok) 10 with
      | Ok (AuthDependency.Authenticated user) =>
          u_id user = 1 /\
          match PostController.add_post db1 {| pc_text := Fixture.hello |}
                  user 20 true with
          | (Response 201 created, db2) =>
              let listed (c : bool) : outcome (http PostsListResponse) :=
                Ok (Response 200
                      {| posts := [{| pr_id := 1; pr_text := Fixture.hello;
                                      pr_user_id := 1; pr_created_at := 20;
                                      pr_updated_at := 20 |}];
                         total := 1; cached := c |}) in
              pcr_postID created = 1 /\
              fst (PostController.get_posts db2 user 30) = listed false /\
              fst (PostController.get_posts db2 user 40) = listed false /\
              match PostController.delete_post db2 1 user true with
              | (Response 200 deleted, db3) =>
                  pdr_postID deleted = 1 /\
                  fst (PostController.get_posts db3 user 50)
                  = Ok (Response 200
                          {| posts := []; total := 0; cached := false |})
              | _ => False
              end
          | _ => False
          end
      | _ => False
      end
  | _ => False
  end.
Proof. vm_compute. repeat split. Qed.

(** * Further properties of the code *)

(** ** The post table: listing, inserting, deleting *)

#[global] Instance newer_first_total : Total newer_first.
Proof. intros a b. unfold newer_first. lia. Qed.

#[global] Instance newer_first_trans : Transitive newer_first.
Proof. intros a b c. unfold newer_first. lia. Qed.

Lemma find_filter_other (l : list Post) (q pid : Z) :
  q <> pid ->
  List.find (fun p => p_id p =? q)
            (List.filter (fun p => negb (p_id p =? pid)) l)
  = List.find (fun p => p_id p =? q) l.
Proof.
  intros Hne. induction l as [|a r IH]; simpl; [reflexivity|].
  destruct (p_id a =? pid) eqn:Ha; simpl.
  - apply Z.eqb_eq in Ha.
    replace (p_id a =? q) with false by (symmetry; apply Z.eqb_neq; lia).
    exact IH.
  - destruct (p_id a =? q); [reflexivity | exact IH].
Qed.

Lemma find_filter_same (l : list Post) (pid : Z) :
  List.find (fun p => p_id p =? pid)
            (List.filter (fun p => negb (p_id p =? pid)) l) = None.
Proof.
  induction l as [|a r IH]; simpl; [reflexivity|].
  destruct (p_id a =? pid) eqn:Ha; simpl; [exact IH|].
  rewrite Ha. exact IH.
Qed.

Lemma find_fresh_id (l : list Post) (bound : Z) :
  Forall (fun p => p_id p < bound) l ->
  List.find (fun p => p_id p =? bound) l = None.
Proof.
  induction 1 as [|a r Ha _ IH]; simpl; [reflexivity|].
  replace (p_id a =? bound) with false by (symmetry; apply Z.eqb_neq; lia).
  exact IH.
Qed.

(** X1. The listing of a user's posts holds exactly the rows of the post
    table that belong to that user, as many as there are, and runs from
    the newest to the oldest creation time. *)
Theorem X1_user_posts_exact_and_ordered (db : DB) (user_id : Z) :
  (forall p, In p (PostRepository.get_user_posts db user_id) <->
             In p (db_posts db) /\ p_user_id p = user_id) /\
  length (PostRepository.get_user_posts db user_id)
  = length (List.filter (fun p => p_user_id p =? user_id) (db_posts db)) /\
  StronglySorted (fun a b => p_created_at b <= p_created_at a)
                 (PostRepository.get_user_posts db user_id).
Proof.
  unfold PostRepository.get_user_posts. split; [|split].
  - intros p. rewrite <- !list_elem_of_In, merge_sort_Permutation.
    rewrite list_elem_of_In, filter_In, Z.eqb_eq, list_elem_of_In. reflexivity.
  - apply Permutation_length, merge_sort_Permutation.
  - apply (StronglySorted_merge_sort newer_first).
Qed.

(** X2. Creating a post on a store whose post ids lie below the counter
    succeeds when the commit does: the id handed back is the counter's
    value, no post had it before, the post is then found under it with
    the submitted text and owner, every post found before is still found
    unchanged, and the accounts are untouched.  When the commit fails
    nothing is stored and nothing is dropped from the cache. *)
Theorem X2_create_then_find (self : PostService.t) (post_data : PostCreate)
        (user_id now : Z) :
  db_wf (PostService.db self) ->
  (exists self',
      PostService.create_post self post_data user_id now true
      = (Some (mk_PostCreateResponse (db_next_post (PostService.db self))), self') /\
      PostRepository.get_by_id (PostService.db self)
        (db_next_post (PostService.db self)) = None /\
      PostRepository.get_by_id (PostService.db self')
        (db_next_post (PostService.db self))
      = Some {| p_id := db_next_post (PostService.db self);
                p_text := pc_text post_data; p_user_id := user_id;
                p_created_at := now; p_updated_at := now |} /\
      (forall q post,
          PostRepository.get_by_id (PostService.db self) q = Some post ->
          PostRepository.get_by_id (PostService.db self') q = Some post) /\
      db_users (PostService.db self') = db_users (PostService.db self) /\
      db_wf (PostService.db self')) /\
  (let '(result, self') :=
     PostService.create_post self post_data user_id now false in
   result = None /\ PostService.db self' = PostService.db self /\
   PostService._cache self' = PostService._cache self).
Proof.
  intros Hwf. split; [|simpl; auto].
  eexists. split; [reflexivity|]. simpl.
  destruct Hwf as [Hnd Hlt].
  unfold PostRepository.get_by_id, first_where. simpl.
  pose proof (find_fresh_id _ _ Hlt) as Hfresh.
  split; [exact Hfresh|]. split; [|split; [|split]].
  - apply find_app_fresh; [exact Hfresh | simpl; apply Z.eqb_refl].
  - intros q post Hq. apply find_app_l. exact Hq.
  - reflexivity.
  - apply (db_wf_create (PostService.db self) post_data user_id now true).
    split; assumption.
Qed.

Lemma X2_create_then_find_witness :
  exists self',
    PostService.create_post (PostService.init Fixture.store)
      {| pc_text := Fixture.hello |} 2 60 true
    = (Some (mk_PostCreateResponse 2), self') /\
    PostRepository.get_by_id Fixture.store 2 = None /\
    PostRepository.get_by_id (PostService.db self') 2
    = Some {| p_id := 2; p_text := Fixture.hello; p_user_id := 2;
              p_created_at := 60; p_updated_at := 60 |} /\
    (forall q post,
        PostRepository.get_by_id Fixture.store q = Some post ->
        PostRepository.get_by_id (PostService.db self') q = Some post) /\
    db_users (PostService.db self') = db_users Fixture.store /\
    db_wf (PostService.db self').
Proof.
  apply (X2_create_then_find (PostService.init Fixture.store)
           {| pc_text := Fixture.hello |} 2 60).
  split.
  - simpl. apply NoDup_singleton.
  - simpl. repeat constructor.
Defined.

(** X3. When its owner deletes a stored post and the commit goes through,
    the deleted id is handed back, the post is no longer found, every
    other id is looked up as before, the owner's cache entry is gone, and
    deleting the same id again answers [None].  When the commit fails the
    answer is [None] and the post is still found. *)
Theorem X3_delete_then_absent (self : PostService.t) (post_id user_id : Z)
        (post : Post) :
  PostRepository.get_by_id (PostService.db self) post_id = Some post ->
  p_user_id post = user_id ->
  (exists self',
      PostService.delete_post self post_id user_id true
      = (Some (mk_PostDeleteResponse post_id), self') /\
      PostRepository.get_by_id (PostService.db self') post_id = None /\
      (forall q, q <> post_id ->
                 PostRepository.get_by_id (PostService.db self') q
                 = PostRepository.get_by_id (PostService.db self) q) /\
      PostService._cache self' !! PostService.cache_key user_id = None /\
      (forall anyone ok,
          PostService.delete_post self' post_id anyone ok = (None, self'))) /\
  (let '(result, self') :=
     PostService.delete_post self post_id user_id false in
   result = None /\
   PostRepository.get_by_id (PostService.db self') post_id = Some post).
Proof.
  intros Hget Hown.
  destruct (get_by_id_In _ _ _ Hget) as [_ Hid].
  unfold PostService.delete_post. rewrite Hget. simpl.
  replace (p_user_id post =? user_id) with true
    by (symmetry; apply Z.eqb_eq; exact Hown).
  simpl. split; [|auto].
  eexists. split; [reflexivity|]. simpl.
  unfold PostRepository.get_by_id, first_where. simpl. rewrite Hid.
  pose proof (find_filter_same (db_posts (PostService.db self)) post_id) as Hgone.
  split; [exact Hgone|]. split; [|split].
  - intros q Hq. apply find_filter_other. exact Hq.
  - apply lookup_delete_eq.
  - intros anyone ok. rewrite Hgone. reflexivity.
Qed.

Lemma X3_delete_then_absent_witness :
  exists self',
    PostService.delete_post (PostService.init Fixture.store) 1 1 true
    = (Some (mk_PostDeleteResponse 1), self') /\
    PostRepository.get_by_id (PostService.db self') 1 = None /\
    (forall q, q <> 1 ->
               PostRepository.get_by_id (PostService.db self') q
               = PostRepository.get_by_id Fixture.store q) /\
    PostService._cache self' !! PostService.cache_key 1 = None /\
    (forall anyone ok,
        PostService.delete_post self' 1 anyone ok = (None, self')).
Proof.
  apply (X3_delete_then_absent (PostService.init Fixture.store) 1 1
           Fixture.hello_post).
  - vm_compute. reflexivity.
  - reflexivity.
Defined.

(** X4. On a store with unique post ids, a delete request never removes
    or alters a post of anybody but the requester: whatever the id asked
    for and whatever the commit does, the posts of every other user are
    the same rows afterwards and are listed the same. *)
Theorem X4_delete_spares_other_users (self : PostService.t)
        (post_id user_id : Z) (commit_ok : bool) :
  db_wf (PostService.db self) ->
  let self' := snd (PostService.delete_post self post_id user_id commit_ok) in
  (forall p, p_user_id p <> user_id ->
             (In p (db_posts (PostService.db self')) <->
              In p (db_posts (PostService.db self)))) /\
  (forall other, other <> user_id ->
                 PostRepository.get_user_posts (PostService.db self') other
                 = PostRepository.get_user_posts (PostService.db self) other).
Proof.
  intros Hwf. cbv zeta. unfold PostService.delete_post.
  destruct (PostRepository.get_by_id (PostService.db self) post_id)
    as [post|] eqn:Hget; [|simpl; split; reflexivity].
  simpl. destruct (p_user_id post =? user_id) eqn:Hown; simpl;
    [|split; reflexivity].
  apply Z.eqb_eq in Hown.
  destruct commit_ok; simpl; [|split; reflexivity].
  destruct (get_by_id_In _ _ _ Hget) as [Hin Hid].
  split.
  - intros p Hp. rewrite filter_In. split; [tauto|].
    intros Hpin. split; [exact Hpin|].
    apply negb_true_iff, Z.eqb_neq. intros Heq.
    destruct Hwf as [Hnd _].
    assert (p = post) by (eapply NoDup_map_id_eq; eauto). congruence.
  - intros other Hother.
    apply (delete_other_user (PostService.db self) post _ other Hwf Hin).
    + reflexivity.
    + congruence.
Qed.

Lemma X4_delete_spares_other_users_witness :
  let self' :=
    snd (PostService.delete_post (PostService.init Fixture.store) 1 2 true) in
  (forall p, p_user_id p <> 2 ->
             (In p (db_posts (PostService.db self')) <->
              In p (db_posts Fixture.store))) /\
  (forall other, other <> 2 ->
                 PostRepository.get_user_posts (PostService.db self') other
                 = PostRepository.get_user_posts Fixture.store other).
Proof.
  apply (X4_delete_spares_other_users (PostService.init Fixture.store) 1 2 true).
  split.
  - simpl. apply NoDup_singleton.
  - simpl. repeat constructor.
Defined.

(** ** The listing cache of one service object *)

Lemma comprehension_from_orm_Ok (xs : list Post) :
  Forall (fun p => text_field_ok (p_text p) = true) xs ->
  exists rs,
    comprehension from_orm xs = Ok rs /\
    length rs = length xs /\
    forall x, In x xs ->
              exists r, In r rs /\ pr_id r = p_id x /\ pr_text r = p_text x /\
                        pr_user_id r = p_user_id x.
Proof.
  induction 1 as [|a r Ha _ (rs & Hrs & Hlen & Hin)]; simpl.
  - exists []. split; [reflexivity|]. split; [reflexivity|]. intros x [].
  - unfold from_orm at 1. rewrite Ha, Hrs. eexists. split; [reflexivity|].
    split; [simpl; congruence|].
    intros x [<- | Hx].
    + eexists. split; [left; reflexivity|]. simpl. auto.
    + destruct (Hin x Hx) as (r' & Hr' & Hrest). exists r'. split; [right|]; auto.
Qed.

Lemma comprehension_from_orm_Raise (xs : list Post) (x : Post) :
  In x xs -> text_field_ok (p_text x) = false ->
  comprehension from_orm xs = Raise ValidationError.
Proof.
  induction xs as [|a r IH]; simpl; [tauto|].
  intros [-> | Hin] Hbad.
  - unfold from_orm. rewrite Hbad. reflexivity.
  - unfold from_orm at 1. destruct (text_field_ok (p_text a)); [|reflexivity].
    rewrite (IH Hin Hbad). reflexivity.
Qed.

(** X5. Starting from a freshly built service object on a store with
    unique post ids, after any sequence of create, list and delete calls
    on that object the post ids are still unique, every cached snapshot
    equals what a fetch from the present store gives, and so a listing
    that returns, from the cache or not, returns the present posts of
    the user and their number. *)
Theorem X5_cache_never_stale (d : DB) (ops : list PostService.operation)
        (user_id now : Z) :
  db_wf d ->
  let self := PostService.run ops (PostService.init d) in
  db_wf (PostService.db self) /\
  PostService.coherent self /\
  (forall resp,
      fst (PostService.get_user_posts self user_id now) = Ok resp ->
      comprehension from_orm
        (PostRepository.get_user_posts (PostService.db self) user_id)
      = Ok (posts resp) /\
      total resp = Py.len (posts resp)).
Proof.
  intros Hwf self.
  assert (Hinv : db_wf (PostService.db self) /\ PostService.coherent self).
  { apply run_invariant; [exact Hwf|]. intros u snap t. simpl.
    rewrite lookup_empty. discriminate. }
  destruct Hinv as [Hwf' Hco]. split; [exact Hwf'|]. split; [exact Hco|].
  intros resp Hresp. split.
  - apply (service_listing_fresh d ops user_id now resp Hwf Hresp).
  - revert Hresp. unfold PostService.get_user_posts.
    pose proof (fetch_user_posts_spec self user_id now) as Hf.
    destruct (PostService._cache self !! _) as [[cd ct]|];
      [destruct (now - ct <? 300); [simpl; intros [= <-]; reflexivity|]|];
      (destruct (PostService.fetch_user_posts _ _ _) as [[r|e] s]; simpl;
       [intros [= <-]; tauto | discriminate]).
Qed.

Lemma X5_cache_never_stale_witness :
  let ops := [PostService.List_ 1 100;
              PostService.Create {| pc_text := Fixture.hello |} 1 110 true;
              PostService.List_ 1 120;
              PostService.Delete 1 1 true] in
  let self := PostService.run ops (PostService.init Fixture.store) in
  db_wf (PostService.db self) /\
  PostService.coherent self /\
  (forall resp,
      fst (PostService.get_user_posts self 1 130) = Ok resp ->
      comprehension from_orm
        (PostRepository.get_user_posts (PostService.db self) 1)
      = Ok (posts resp) /\
      total resp = Py.len (posts resp)).
Proof.
  apply (X5_cache_never_stale Fixture.store).
  split.
  - simpl. apply NoDup_singleton.
  - simpl. repeat constructor.
Defined.

(** A listing leaves the store as it is; one made for another user, or
    answered from the snapshot, leaves the user's cache entry as it is. *)
Lemma listing_keeps_entry (self : PostService.t) (user_id reader now : Z)
      (snapshot : list PostResponse) (stamp : Z) :
  PostService._cache self !! PostService.cache_key user_id
  = Some (snapshot, stamp) ->
  (reader = user_id -> now - stamp < 300) ->
  PostService.db (snd (PostService.get_user_posts self reader now))
  = PostService.db self /\
  PostService._cache (snd (PostService.get_user_posts self reader now))
  !! PostService.cache_key user_id = Some (snapshot, stamp).
Proof.
  intros Hc Hlive. unfold PostService.get_user_posts.
  destruct (Z.eq_dec reader user_id) as [-> | Hne].
  - rewrite Hc.
    replace (now - stamp <? 300) with true
      by (symmetry; apply Z.ltb_lt; auto).
    split; [reflexivity | exact Hc].
  - assert (Hkey : PostService.cache_key reader
                   <> PostService.cache_key user_id)
      by (intros Hk; apply cache_key_inj in Hk; congruence).
    pose proof (fetch_user_posts_spec self reader now) as Hf.
    assert (Hfetch :
              PostService.db (snd (PostService.fetch_user_posts self reader now))
              = PostService.db self /\
              PostService._cache
                (snd (PostService.fetch_user_posts self reader now))
              !! PostService.cache_key user_id = Some (snapshot, stamp)).
    { destruct (PostService.fetch_user_posts _ _ _) as [[r|e] s]; simpl;
        [|subst s; split; [reflexivity | exact Hc]].
      destruct Hf as (_ & _ & _ & -> & ->). split; [reflexivity|].
      rewrite lookup_insert_ne by exact Hkey. exact Hc. }
    destruct (PostService._cache self !! PostService.cache_key reader)
      as [[cd ct]|]; [destruct (now - ct <? 300)|]; try exact Hfetch.
    split; [reflexivity | exact Hc].
Qed.

(** X6. The life time of a snapshot is counted from the fetch that made
    it, not from its last use.  Take a service object that holds a
    snapshot for a user, and let any number of listings follow, for this
    user at readings less than 300 seconds past the stamp and for other
    users at any reading.  These listings change neither the store nor
    the user's snapshot nor its stamp.  Afterwards a listing for the user
    at a reading less than 300 seconds past the stamp is still answered
    from the snapshot, and one at 300 seconds or more past the stamp is
    fetched again, answers [cached = false] and leaves a snapshot stamped
    with the present reading, however recent the last use was. *)
Theorem X6_hits_do_not_refresh (self : PostService.t) (user_id : Z)
        (snapshot : list PostResponse) (stamp : Z) (reads : list (Z * Z)) :
  PostService._cache self !! PostService.cache_key user_id
  = Some (snapshot, stamp) ->
  Forall (fun r => fst r = user_id -> snd r - stamp < 300) reads ->
  let self' :=
    PostService.run (map (fun r => PostService.List_ (fst r) (snd r)) reads)
                    self in
  PostService.db self' = PostService.db self /\
  PostService._cache self' !! PostService.cache_key user_id
  = Some (snapshot, stamp) /\
  (forall now,
      now - stamp < 300 ->
      PostService.get_user_posts self' user_id now
      = (Ok {| posts := snapshot; total := Py.len snapshot; cached := true |},
         self')) /\
  (forall now rows,
      300 <= now - stamp ->
      comprehension from_orm
        (PostRepository.get_user_posts (PostService.db self) user_id)
      = Ok rows ->
      fst (PostService.get_user_posts self' user_id now)
      = Ok {| posts := rows; total := Py.len rows; cached := false |} /\
      PostService._cache (snd (PostService.get_user_posts self' user_id now))
      !! PostService.cache_key user_id = Some (rows, now)).
Proof.
  intros Hc Hreads. cbv zeta.
  assert (Hrun : PostService.db
                   (PostService.run
                      (map (fun r => PostService.List_ (fst r) (snd r)) reads)
                      self)
                 = PostService.db self /\
                 PostService._cache
                   (PostService.run
                      (map (fun r => PostService.List_ (fst r) (snd r)) reads)
                      self)
                 !! PostService.cache_key user_id = Some (snapshot, stamp)).
  { revert self Hc. induction Hreads as [|[reader t] rest Hr _ IH];
      intros self Hc; [split; [reflexivity | exact Hc]|].
    simpl in Hr. unfold PostService.run. simpl.
    destruct (listing_keeps_entry self user_id reader t snapshot stamp Hc Hr)
      as [Hdb Hc'].
    destruct (IH _ Hc') as [Hdb' Hc''].
    split; [|exact Hc'']. unfold PostService.run in Hdb'.
    rewrite Hdb'. exact Hdb. }
  destruct Hrun as [Hdb Hc']. split; [exact Hdb|]. split; [exact Hc'|].
  split.
  - intros now Hlive. unfold PostService.get_user_posts. rewrite Hc'.
    replace (now - stamp <? 300) with true by (symmetry; apply Z.ltb_lt; lia).
    reflexivity.
  - intros now rows Hdead Hrows. unfold PostService.get_user_posts.
    rewrite Hc'.
    replace (now - stamp <? 300) with false by (symmetry; apply Z.ltb_ge; lia).
    unfold PostService.fetch_user_posts. rewrite Hdb, Hrows. simpl.
    split; [reflexivity | apply lookup_insert_eq].
Qed.

Lemma X6_hits_do_not_refresh_witness :
  let self := snd (PostService.get_user_posts
                     (PostService.init Fixture.store) 1 100) in
  let self' :=
    PostService.run [PostService.List_ 1 200; PostService.List_ 2 900;
                     PostService.List_ 1 399] self in
  PostService.db self' = PostService.db self /\
  PostService._cache self' !! PostService.cache_key 1
  = Some ([Fixture.hello_response], 100) /\
  PostService.get_user_posts self' 1 399
  = (Ok (Fixture.listing true), self') /\
  fst (PostService.get_user_posts self' 1 400) = Ok (Fixture.listing false) /\
  PostService._cache (snd (PostService.get_user_posts self' 1 400))
  !! PostService.cache_key 1 = Some ([Fixture.hello_response], 400).
Proof.
  cbv zeta.
  assert (Hc : PostService._cache
                 (snd (PostService.get_user_posts
                         (PostService.init Fixture.store) 1 100))
               !! PostService.cache_key 1
               = Some ([Fixture.hello_response], 100))
    by (vm_compute; reflexivity).
  assert (Hreads : Forall (fun r : Z * Z => fst r = 1 -> snd r - 100 < 300)
                          [(1, 200); (2, 900); (1, 399)]).
  { repeat constructor; simpl; intros; lia. }
  destruct (X6_hits_do_not_refresh _ 1 _ 100 _ Hc Hreads)
    as (Hdb & Hentry & Hhit & Hmiss).
  split; [exact Hdb|]. split; [exact Hentry|]. split.
  - apply (Hhit 399). lia.
  - apply (Hmiss 400 [Fixture.hello_response]); [lia|].
    vm_compute. reflexivity.
Defined.

(** X7. Cache entries are per user: an operation made for one user
    neither removes nor replaces the snapshot kept for any other user,
    because distinct user ids give distinct cache keys. *)
Theorem X7_cache_entries_per_user (self : PostService.t)
        (op : PostService.operation) (other : Z) :
  other <> PostService.operation_user op ->
  PostService._cache (PostService.step self op) !! PostService.cache_key other
  = PostService._cache self !! PostService.cache_key other.
Proof.
  intros Hne.
  assert (Hkey : PostService.cache_key (PostService.operation_user op)
                 <> PostService.cache_key other)
    by (intros Hk; apply cache_key_inj in Hk; congruence).
  destruct op as [pd uid now ok | uid now | pid uid ok]; simpl in *.
  - unfold PostService.create_post, PostRepository.create.
    destruct ok; simpl; [|reflexivity].
    unfold PostService.invalidate. apply lookup_delete_ne. exact Hkey.
  - unfold PostService.get_user_posts.
    pose proof (fetch_user_posts_spec self uid now) as Hf.
    assert (Hfetch : PostService._cache
                       (snd (PostService.fetch_user_posts self uid now))
                     !! PostService.cache_key other
                     = PostService._cache self !! PostService.cache_key other).
    { destruct (PostService.fetch_user_posts _ _ _) as [[r|e] s]; simpl;
        [|subst s; reflexivity].
      destruct Hf as (_ & _ & _ & _ & ->). apply lookup_insert_ne. exact Hkey. }
    destruct (PostService._cache self !! PostService.cache_key uid)
      as [[cd ct]|]; [destruct (now - ct <? 300); [reflexivity|]|]; exact Hfetch.
  - unfold PostService.delete_post.
    destruct (PostRepository.get_by_id _ _) as [post|]; [|reflexivity].
    destruct (negb _); [reflexivity|].
    unfold PostRepository.delete. destruct ok; simpl; [|reflexivity].
    unfold PostService.invalidate. apply lookup_delete_ne. exact Hkey.
Qed.

Lemma X7_cache_entries_per_user_witness :
  let self := {| PostService.db := Fixture.store;
                 PostService._cache :=
                   {[ PostService.cache_key 1 := ([Fixture.hello_response], 100) ]} |} in
  PostService._cache
    (PostService.step self
       (PostService.Create {| pc_text := Fixture.hello |} 2 110 true))
  !! PostService.cache_key 1
  = PostService._cache self !! PostService.cache_key 1.
Proof.
  cbv zeta.
  apply (X7_cache_entries_per_user _
           (PostService.Create {| pc_text := Fixture.hello |} 2 110 true) 1).
  simpl. discriminate.
Defined.

(** X8. A text of 1 to 10,000 whitespace characters passes the request
    schema and [POST /posts] stores it as an empty text with status 201;
    from then on [GET /posts] of that user raises the validation error
    of the response schema, on every request, and stores nothing. *)
Theorem X8_blank_post_breaks_listing (d : DB) (current_user : User)
        (raw : list N) (now : Z) :
  1 <= Py.len raw <= 10000 ->
  Forall (fun c => Py.isspace c = true) raw ->
  exists post_data d',
    parse_PostCreate raw = Some post_data /\
    PostController.add_post d post_data current_user now true
    = (Response 201 (mk_PostCreateResponse (db_next_post d)), d') /\
    forall later,
      PostController.get_posts d' current_user later
      = (Raise ValidationError, d').
Proof.
  intros Hlen Hsp.
  assert (Hacc : parse_PostCreate raw = Some {| pc_text := [] |}).
  { rewrite <- (strip_blank raw Hsp). apply parse_PostCreate_accepts.
    - exact Hlen.
    - eapply Forall_impl; [exact Hsp|]. intros c. apply isspace_scalar. }
  eexists _, _. split; [exact Hacc|]. split; [reflexivity|].
  intros later. simpl.
  unfold PostController.get_posts, PostService.get_user_posts. simpl.
  rewrite lookup_empty. unfold PostService.fetch_user_posts. simpl.
  set (blank := {| p_id := db_next_post d; p_text := [];
                   p_user_id := u_id current_user;
                   p_created_at := now; p_updated_at := now |}).
  rewrite (comprehension_from_orm_Raise _ blank); [reflexivity| |reflexivity].
  apply (get_user_posts_In
           {| db_users := db_users d; db_posts := db_posts d ++ [blank];
              db_next_user := db_next_user d;
              db_next_post := db_next_post d + 1 |} blank).
  simpl. apply in_or_app. right. left. reflexivity.
Qed.

Lemma X8_blank_post_breaks_listing_witness :
  exists post_data d',
    parse_PostCreate [32; 9; 10]%N = Some post_data /\
    PostController.add_post Fixture.store post_data Fixture.alice 60 true
    = (Response 201 (mk_PostCreateResponse 2), d') /\
    forall later,
      PostController.get_posts d' Fixture.alice later
      = (Raise ValidationError, d').
Proof.
  apply (X8_blank_post_breaks_listing Fixture.store Fixture.alice
           [32; 9; 10]%N 60).
  - vm_compute. split; discriminate.
  - repeat constructor.
Defined.

(** X9. Create, then list, on one service object: when the new text and
    the user's stored texts fit the response schema, the listing that
    follows a successful create is fetched from the store
    ([cached = false]), counts one post more than the user had, and
    contains the new post under its id with the submitted text. *)
Theorem X9_create_then_list (self : PostService.t) (post_data : PostCreate)
        (user_id now later : Z) :
  text_field_ok (pc_text post_data) = true ->
  Forall (fun p => text_field_ok (p_text p) = true)
         (PostRepository.get_user_posts (PostService.db self) user_id) ->
  let self1 :=
    snd (PostService.create_post self post_data user_id now true) in
  exists resp self2,
    PostService.get_user_posts self1 user_id later = (Ok resp, self2) /\
    cached resp = false /\
    total resp
    = Py.len (PostRepository.get_user_posts (PostService.db self) user_id) + 1 /\
    exists r, In r (posts resp) /\
              pr_id r = db_next_post (PostService.db self) /\
              pr_text r = pc_text post_data /\
              pr_user_id r = user_id.
Proof.
  intros Hnew Hold. cbv zeta.
  destruct (service_create_invalidates self post_data user_id now
              (mk_PostCreateResponse (db_next_post (PostService.db self)))
              (snd (PostService.create_post self post_data user_id now true))
              eq_refl) as [_ Hmiss].
  rewrite Hmiss. unfold PostService.fetch_user_posts. simpl.
  set (fresh := {| p_id := db_next_post (PostService.db self);
                   p_text := pc_text post_data; p_user_id := user_id;
                   p_created_at := now; p_updated_at := now |}).
  set (d1 := {| db_users := db_users (PostService.db self);
                db_posts := db_posts (PostService.db self) ++ [fresh];
                db_next_user := db_next_user (PostService.db self);
                db_next_post := db_next_post (PostService.db self) + 1 |}).
  assert (Hperm : PostRepository.get_user_posts d1 user_id
                  ≡ₚ PostRepository.get_user_posts (PostService.db self) user_id
                     ++ [fresh]).
  { unfold PostRepository.get_user_posts. rewrite !merge_sort_Permutation.
    subst d1. simpl. rewrite List.filter_app. simpl.
    rewrite Z.eqb_refl. reflexivity. }
  assert (Hall : Forall (fun p => text_field_ok (p_text p) = true)
                        (PostRepository.get_user_posts d1 user_id)).
  { rewrite Hperm. apply Forall_app. split; [exact Hold|].
    constructor; [exact Hnew | constructor]. }
  destruct (comprehension_from_orm_Ok _ Hall) as (rs & Hrs & Hlen & Hin).
  rewrite Hrs. eexists _, _. split; [reflexivity|]. simpl.
  split; [reflexivity|]. split.
  - unfold Py.len. rewrite Hlen, (Permutation_length Hperm), length_app.
    simpl. lia.
  - destruct (Hin fresh) as (r & Hr & Hid & Htext & Hu).
    + apply list_elem_of_In. rewrite Hperm. apply list_elem_of_In.
      apply in_or_app. right. left. reflexivity.
    + exists r. auto.
Qed.

Lemma X9_create_then_list_witness :
  let self1 :=
    snd (PostService.create_post (PostService.init Fixture.store)
           {| pc_text := Fixture.hello |} 1 60 true) in
  exists resp self2,
    PostService.get_user_posts self1 1 70 = (Ok resp, self2) /\
    cached resp = false /\
    total resp = Py.len (PostRepository.get_user_posts Fixture.store 1) + 1 /\
    exists r, In r (posts resp) /\ pr_id r = 2 /\
              pr_text r = Fixture.hello /\ pr_user_id r = 1.
Proof.
  apply (X9_create_then_list (PostService.init Fixture.store)
           {| pc_text := Fixture.hello |} 1 60 70).
  - vm_compute. reflexivity.
  - vm_compute. repeat constructor.
Defined.

(** ** Request schemas *)

Lemma lstrip_split (s : list N) :
  exists k, s = k ++ Py.lstrip s /\
            forall c r, Py.lstrip s = c :: r -> Py.isspace c = false.
Proof.
  induction s as [|a s (k & Hk & Hhead)]; simpl.
  - exists []. split; [reflexivity | discriminate].
  - destruct (Py.isspace a) eqn:Ha.
    + exists (a :: k). split; [simpl; congruence | exact Hhead].
    + exists []. split; [reflexivity|]. intros c r [= <- _]. exact Ha.
Qed.

Lemma lstrip_fixed (s : list N) :
  (forall c r, s = c :: r -> Py.isspace c = false) -> Py.lstrip s = s.
Proof.
  destruct s as [|a r]; simpl; [reflexivity|].
  intros H. rewrite (H a r eq_refl). reflexivity.
Qed.

Lemma strip_trimmed (s : list N) :
  (forall c, head (Py.strip s) = Some c -> Py.isspace c = false) /\
  (forall c, last (Py.strip s) = Some c -> Py.isspace c = false) /\
  Py.strip (Py.strip s) = Py.strip s.
Proof.
  unfold Py.strip, Py.rstrip.
  destruct (lstrip_split s) as (k1 & _ & Hhead1).
  destruct (lstrip_split (rev (Py.lstrip s))) as (k2 & Hk2 & Hhead2).
  set (a := Py.lstrip s) in *. set (b := Py.lstrip (rev a)) in *.
  assert (Ha : a = rev b ++ rev k2).
  { rewrite <- rev_app_distr, <- Hk2, rev_involutive. reflexivity. }
  assert (Hfirst : forall c r, rev b = c :: r -> Py.isspace c = false).
  { intros c r Hr. apply (Hhead1 c (r ++ rev k2)). rewrite Ha, Hr. reflexivity. }
  assert (Hlast : forall c, last (rev b) = Some c -> Py.isspace c = false).
  { intros c [l' Hl]%last_Some. apply (Hhead2 c (rev l')).
    rewrite <- (rev_involutive b), Hl, rev_app_distr. reflexivity. }
  split; [|split].
  - intros c [l' Hl]%head_Some. eapply Hfirst. exact Hl.
  - exact Hlast.
  - rewrite (lstrip_fixed (rev b) Hfirst), rev_involutive.
    rewrite (lstrip_fixed b Hhead2). reflexivity.
Qed.

(** X10. The text of an accepted [PostCreate] neither begins nor ends
    with a whitespace character and has at most 10,000 characters;
    stripping it again changes nothing, so a non-empty accepted text is
    accepted unchanged when it is submitted again. *)
Theorem X10_accepted_text_is_trimmed (raw : list N) (post_data : PostCreate) :
  parse_PostCreate raw = Some post_data ->
  (forall c, head (pc_text post_data) = Some c -> Py.isspace c = false) /\
  (forall c, last (pc_text post_data) = Some c -> Py.isspace c = false) /\
  Py.len (pc_text post_data) <= 10000 /\
  Py.strip (pc_text post_data) = pc_text post_data /\
  (pc_text post_data <> [] ->
   parse_PostCreate (pc_text post_data) = Some post_data).
Proof.
  intros H.
  destruct (parse_PostCreate_Some raw post_data H)
    as ([_ Hmax] & (n & Hn & _) & Ht).
  destruct (strip_trimmed raw) as (Hhead & Hlast & Hidem).
  destruct (strip_infix raw) as (k1 & k2 & Hk).
  assert (Hlen : Py.len (Py.strip raw) <= Py.len raw).
  { unfold Py.len. rewrite Hk at 2. rewrite !length_app. lia. }
  rewrite Ht. repeat split; try assumption; [lia|].
  intros Hne. destruct post_data as [text]. simpl in Ht. subst text.
  rewrite <- Hidem at 2. apply parse_PostCreate_accepts.
  - split; [|lia]. unfold Py.len.
    destruct (Py.strip raw); [congruence | simpl; lia].
  - pose proof (utf8_len_Some_scalar raw n Hn) as Hsc.
    rewrite Hk in Hsc. apply Forall_app in Hsc as [_ Hsc].
    apply Forall_app in Hsc as [Hsc _]. exact Hsc.
Qed.

Lemma X10_accepted_text_is_trimmed_witness :
  let post_data := {| pc_text := [104; 105]%N |} in
  (forall c, head (pc_text post_data) = Some c -> Py.isspace c = false) /\
  (forall c, last (pc_text post_data) = Some c -> Py.isspace c = false) /\
  Py.len (pc_text post_data) <= 10000 /\
  Py.strip (pc_text post_data) = pc_text post_data /\
  (pc_text post_data <> [] ->
   parse_PostCreate (pc_text post_data) = Some post_data).
Proof.
  apply (X10_accepted_text_is_trimmed [32; 104; 105; 9; 10]%N).
  vm_compute. reflexivity.
Defined.

(** X11. Among the texts of 1 to 10,000 characters, the ones the request
    schema refuses are exactly those holding a code point that UTF-8
    cannot encode (a lone surrogate): the 1 MB size test of the validator
    refuses none of them. *)
Theorem X11_size_test_never_fires (raw : list N) :
  1 <= Py.len raw <= 10000 ->
  (parse_PostCreate raw = Some {| pc_text := Py.strip raw |} <->
   Forall (fun c => Py.is_scalar c = true) raw) /\
  (parse_PostCreate raw = None <->
   Exists (fun c => Py.is_scalar c = false) raw).
Proof.
  intros Hlen.
  assert (Hiff : parse_PostCreate raw = Some {| pc_text := Py.strip raw |} <->
                 Forall (fun c => Py.is_scalar c = true) raw).
  { split.
    - intros H. destruct (parse_PostCreate_Some _ _ H) as (_ & (n & Hn & _) & _).
      eapply utf8_len_Some_scalar. exact Hn.
    - apply parse_PostCreate_accepts. exact Hlen. }
  split; [exact Hiff|]. split.
  - intros Hnone.
    assert (Hdec : Forall (fun c => Py.is_scalar c = true) raw \/
                   Exists (fun c => Py.is_scalar c = false) raw).
    { clear. induction raw as [|c r [IH | IH]].
      - left. constructor.
      - destruct (Py.is_scalar c) eqn:Hc.
        + left. constructor; assumption.
        + right. apply Exists_cons_hd. exact Hc.
      - right. apply Exists_cons_tl. exact IH. }
    destruct Hdec as [Hall | Hex]; [|exact Hex].
    apply Hiff in Hall. congruence.
  - intros Hex. destruct (parse_PostCreate raw) as [pc|] eqn:Hp; [|reflexivity].
    destruct (parse_PostCreate_Some _ _ Hp) as (_ & (n & Hn & _) & _).
    pose proof (utf8_len_Some_scalar raw n Hn) as Hall.
    apply List.Exists_exists in Hex as (c & Hin & Hc).
    rewrite List.Forall_forall in Hall. rewrite (Hall c Hin) in Hc.
    discriminate.
Qed.

Lemma X11_size_test_never_fires_witness :
  (parse_PostCreate [104; 105]%N = Some {| pc_text := Py.strip [104; 105]%N |} <->
   Forall (fun c => Py.is_scalar c = true) [104; 105]%N) /\
  (parse_PostCreate [104; 55296]%N = None <->
   Exists (fun c => Py.is_scalar c = false) [104; 55296]%N).
Proof.
  split.
  - apply (X11_size_test_never_fires [104; 105]%N). vm_compute.
    split; discriminate.
  - apply (X11_size_test_never_fires [104; 55296]%N). vm_compute.
    split; discriminate.
Defined.

Lemma str_nonempty (n : Z) : Py.str n <> EmptyString.
Proof.
  intros H. pose proof (int_str n) as Hn. rewrite H in Hn. discriminate.
Qed.

(** X12. The sign-up schema accepts a password exactly when it has 8 to
    128 characters, among them an ASCII letter and a digit, and hands it
    on unchanged; a password of allowed length without a letter is
    refused with the letter message, also when it has no digit either;
    and whatever the sign-up schema accepts the login schema accepts. *)
Theorem X12_password_rules (raw : string) :
  (parse_password raw = inr raw <->
   (8 <= String.length raw <= 128)%nat /\
   (exists a, In a (list_ascii_of_string raw) /\ is_ascii_letter a = true) /\
   (exists a, In a (list_ascii_of_string raw) /\ Py.is_digit a = true)) /\
  (forall v, parse_password raw = inr v ->
             v = raw /\ parse_login_password raw = inr raw) /\
  ((8 <= String.length raw <= 128)%nat ->
   (forall a, In a (list_ascii_of_string raw) -> is_ascii_letter a = false) ->
   parse_password raw
   = inl (Refused "Password must contain at least one letter")).
Proof.
  unfold parse_password, parse_login_password, validate_password.
  destruct (Nat.ltb_spec (String.length raw) 8) as [Hshort | Hmin].
  { split; [|split].
    - split; [discriminate | intros [[? ?] _]; lia].
    - discriminate.
    - intros [? ?]; lia. }
  destruct (Nat.ltb_spec 128 (String.length raw)) as [Hlong | Hmax].
  { split; [|split].
    - split; [discriminate | intros [[? ?] _]; lia].
    - discriminate.
    - intros [? ?]; lia. }
  destruct (Nat.ltb_spec (String.length raw) 1) as [H0 | _]; [lia|].
  destruct (existsb is_ascii_letter (list_ascii_of_string raw)) eqn:Hl; simpl.
  - apply existsb_exists in Hl.
    destruct (existsb Py.is_digit (list_ascii_of_string raw)) eqn:Hd; simpl.
    + apply existsb_exists in Hd. split; [|split].
      * split; [intros _; auto | reflexivity].
      * intros v [= <-]. auto.
      * intros _ Hno. destruct Hl as (a & Ha & Hla).
        rewrite (Hno a Ha) in Hla. discriminate.
    + split; [|split].
      * split; [discriminate|]. intros (_ & _ & Hex).
        apply existsb_exists in Hex. congruence.
      * discriminate.
      * intros _ Hno. destruct Hl as (a & Ha & Hla).
        rewrite (Hno a Ha) in Hla. discriminate.
  - split; [|split].
    + split; [discriminate|]. intros (_ & Hex & _).
      apply existsb_exists in Hex. congruence.
    + discriminate.
    + reflexivity.
Qed.

Lemma X12_password_rules_witness :
  parse_password "pass1234" = inr "pass1234"%string /\
  parse_login_password "pass1234" = inr "pass1234"%string /\
  parse_password "12345678"
  = inl (Refused "Password must contain at least one letter") /\
  parse_password "--------"
  = inl (Refused "Password must contain at least one letter").
Proof.
  split; [|split; [|split]].
  - apply (proj1 (X12_password_rules "pass1234")). split; [simpl; lia|].
    split; [exists "p"%char | exists "1"%char]; simpl; intuition.
  - apply (proj1 (proj2 (X12_password_rules "pass1234")) "pass1234"%string).
    vm_compute. reflexivity.
  - apply (proj2 (proj2 (X12_password_rules "12345678"))); [simpl; lia|].
    intros a Ha. simpl in Ha.
    repeat (destruct Ha as [<- | Ha]; [reflexivity|]). destruct Ha.
  - apply (proj2 (proj2 (X12_password_rules "--------"))); [simpl; lia|].
    intros a Ha. simpl in Ha.
    repeat (destruct Ha as [<- | Ha]; [reflexivity|]). destruct Ha.
Defined.

(** ** The upload limit of the application *)

Lemma int_digits_of_digits (v : string) :
  v <> EmptyString -> Py.all_chars Py.is_digit v = true ->
  Py.int_digits v = Some v.
Proof.
  intros Hne Hdig.
  assert (Hplain : Py.all_chars Py.plain v = true)
    by (eapply all_chars_impl; [apply digit_plain | exact Hdig]).
  unfold Py.int_digits, Py.strip_s.
  rewrite lstrip_s_plain, rstrip_s_plain by assumption.
  destruct v as [|a r]; [congruence|].
  simpl in Hdig. apply andb_true_iff in Hdig as [Ha _].
  assert (Ascii.eqb a "-" = false /\ Ascii.eqb a "+" = false) as [-> ->].
  { split; apply Ascii.eqb_neq; intros ->; discriminate. }
  apply ungroup_plain; [exact Hplain | right; discriminate].
Qed.

Lemma str_digits (n : Z) :
  0 <= n -> Py.all_chars Py.is_digit (Py.str n) = true.
Proof.
  destruct n as [|p|p]; [reflexivity | | lia]. intros _.
  unfold Py.str. simpl Z.to_int. simpl NilZero.string_of_int.
  pose proof (DecimalPos.Unsigned.to_uint_nonnil p) as Hnn.
  replace (NilZero.string_of_uint (Pos.to_uint p))
    with (NilEmpty.string_of_uint (Pos.to_uint p))
    by (destruct (Pos.to_uint p); congruence || reflexivity).
  apply string_of_uint_digits.
Qed.

(** X13. The upload limit looks at POST requests with a Content-Length
    header only.  For a header that is the decimal text of a number, of
    at most 4300 digits, it raises the [HTTPException] with status 413
    when the number is above 1,048,576 and hands the request on when it
    is at most 1,048,576.  A POST without the header (or with an empty
    one) and every request of another method are handed on whatever they
    carry.  A header that [int] cannot read, and a header of more than
    4300 digits, make the middleware raise [ValueError]. *)
Theorem X13_upload_limit :
  (forall n : Z,
      0 <= n ->
      (String.length (Py.str n) <= 4300)%nat ->
      Main.limit_upload_size "POST" (Some (Py.str n))
      = Ok (if n >? 1048576
            then Main.RaiseHTTPException 413
                   "Request payload too large. Maximum size: 1048576 bytes"
            else Main.CallNext)) /\
  Main.limit_upload_size "POST" None = Ok Main.CallNext /\
  Main.limit_upload_size "POST" (Some EmptyString) = Ok Main.CallNext /\
  (forall method content_length,
      method <> "POST"%string ->
      Main.limit_upload_size method content_length = Ok Main.CallNext) /\
  (forall v, v <> EmptyString -> Py.int v = None ->
             Main.limit_upload_size "POST" (Some v) = Raise ValueError) /\
  (forall v, Py.all_chars Py.is_digit v = true ->
             (4300 < String.length v)%nat ->
             Main.limit_upload_size "POST" (Some v) = Raise ValueError).
Proof.
  split; [|split; [|split; [|split; [|split]]]].
  - intros n Hn Hlen. unfold Main.limit_upload_size. simpl String.eqb.
    replace (String.eqb (Py.str n) "") with false
      by (symmetry; apply String.eqb_neq, str_nonempty).
    unfold Py.int_checked.
    rewrite (int_digits_of_digits _ (str_nonempty n) (str_digits n Hn)).
    replace (Py.max_str_digits <? String.length (Py.str n))%nat with false
      by (symmetry; apply Nat.ltb_ge; exact Hlen).
    rewrite int_str. change settings.MAX_PAYLOAD_SIZE with 1048576.
    destruct (n >? 1048576); reflexivity.
  - reflexivity.
  - reflexivity.
  - intros method content_length Hm. unfold Main.limit_upload_size.
    replace (String.eqb method "POST") with false
      by (symmetry; apply String.eqb_neq; exact Hm).
    reflexivity.
  - intros v Hv Hint. unfold Main.limit_upload_size. simpl String.eqb.
    replace (String.eqb v "") with false
      by (symmetry; apply String.eqb_neq; exact Hv).
    unfold Py.int_checked. rewrite Hint.
    destruct (Py.int_digits v) as [d|]; [|reflexivity].
    destruct (Py.max_str_digits <? String.length d)%nat; reflexivity.
  - intros v Hdig Hlen. unfold Main.limit_upload_size. simpl String.eqb.
    assert (Hne : v <> EmptyString) by (intros ->; simpl in Hlen; lia).
    replace (String.eqb v "") with false
      by (symmetry; apply String.eqb_neq; exact Hne).
    unfold Py.int_checked. rewrite (int_digits_of_digits v Hne Hdig).
    replace (Py.max_str_digits <? String.length v)%nat with true
      by (symmetry; apply Nat.ltb_lt; exact Hlen).
    reflexivity.
Qed.

Lemma X13_upload_limit_witness :
  Main.limit_upload_size "POST" (Some "1048576") = Ok Main.CallNext /\
  Main.limit_upload_size "POST" (Some "1048577")
  = Ok (Main.RaiseHTTPException 413
          "Request payload too large. Maximum size: 1048576 bytes") /\
  Main.limit_upload_size "PUT" (Some "99999999") = Ok Main.CallNext /\
  Main.limit_upload_size "POST" (Some "abc") = Raise ValueError /\
  Main.limit_upload_size "POST"
    (Some (string_of_list_ascii (repeat "9"%char (Z.to_nat 4301))))
  = Raise ValueError.
Proof.
  destruct X13_upload_limit as (Hnum & _ & _ & Hother & Hbad & Hlong).
  split; [|split; [|split; [|split]]].
  - apply (Hnum 1048576); [lia | apply Nat.leb_le; vm_compute; reflexivity].
  - apply (Hnum 1048577); [lia | apply Nat.leb_le; vm_compute; reflexivity].
  - apply Hother. discriminate.
  - apply Hbad; [discriminate | reflexivity].
  - apply Hlong.
    + vm_compute. reflexivity.
    + apply Nat.ltb_lt. vm_compute. reflexivity.
Defined.

(** ** Passwords, accounts and tokens together *)

Section HashRoundTrip.

Variable bcrypt_digest : string -> string -> string.

(** The salt and the checksum have the sizes and the alphabet of the
    scheme, and no unused bit of either is set. *)
Definition scheme_sized (salt secret : string) : Prop :=
  String.length salt = 22%nat /\
  Py.all_chars CryptContext.is_bcrypt64 salt = true /\
  CryptContext.repair_salt salt = salt /\
  String.length (bcrypt_digest ("$2b$12$" ++ salt) secret) = 31%nat /\
  Py.all_chars CryptContext.is_bcrypt64
               (bcrypt_digest ("$2b$12$" ++ salt) secret) = true /\
  CryptContext.repair_checksum (bcrypt_digest ("$2b$12$" ++ salt) secret)
  = bcrypt_digest ("$2b$12$" ++ salt) secret.

Lemma verify_hash (salt secret other : string) :
  scheme_sized salt secret ->
  AuthService.verify_password bcrypt_digest other
    (("$2b$12$" ++ salt) ++ bcrypt_digest ("$2b$12$" ++ salt) secret)
  = if (CryptContext.max_password_size <? String.length other)%nat
    then Raise PasswordSizeError
    else if (CryptContext.max_password_size
             <? CryptContext.utf8_size other)%nat
    then Raise PasswordSizeError
    else if CryptContext.has_nul other then Raise PasswordValueError
    else Ok (String.eqb (bcrypt_digest ("$2b$12$" ++ salt) other)
                        (bcrypt_digest ("$2b$12$" ++ salt) secret)).
Proof.
  intros (Hsl & Hsa & Hsr & Hdl & Hda & Hdr).
  set (dg := bcrypt_digest ("$2b$12$" ++ salt) secret) in *.
  change (("$2b$12$" ++ salt) ++ dg)%string
    with ("$2b$" ++ String "1" (String "2" (String "$" (salt ++ dg))))%string.
  rewrite verify_password_cases.
  rewrite identify_append by (unfold CryptContext.idents; simpl; tauto).
  rewrite (parse_well_formed "$2b$" "1" "2" salt dg);
    try assumption; try reflexivity;
    [|simpl; tauto | vm_compute; split; discriminate].
  rewrite Hsr, Hdr. reflexivity.
Qed.

Lemma verify_hash_accepted (salt secret other : string) :
  scheme_sized salt secret ->
  CryptContext.accepts other = true ->
  AuthService.verify_password bcrypt_digest other
    (("$2b$12$" ++ salt) ++ bcrypt_digest ("$2b$12$" ++ salt) secret)
  = Ok (String.eqb (bcrypt_digest ("$2b$12$" ++ salt) other)
                   (bcrypt_digest ("$2b$12$" ++ salt) secret)).
Proof.
  intros Hsized Ho. rewrite (verify_hash salt secret other Hsized).
  apply accepts_checks in Ho as (H1 & H2 & H3).
  rewrite H1, H2, H3. reflexivity.
Qed.

(** X14. A hash made by [get_password_hash] from a password the scheme
    takes (at most 4096 bytes in UTF-8, no NUL), with a salt and a digest of
    the scheme's sizes and alphabet and without stray unused bits, is a
    well-formed hash string.  The password it was made from verifies
    against it; another password the scheme takes verifies exactly when
    its digest under the same salt is the same; a password the scheme
    refuses makes the check raise.  From a refused password no hash is
    made: [get_password_hash] raises. *)
Theorem X14_hash_then_verify (salt secret : string) :
  (scheme_sized salt secret ->
   CryptContext.accepts secret = true ->
   exists hashed,
     AuthService.get_password_hash bcrypt_digest salt secret = Ok hashed /\
     CryptContext.well_formed hashed /\
     AuthService.verify_password bcrypt_digest secret hashed = Ok true /\
     (forall other,
         CryptContext.accepts other = true ->
         AuthService.verify_password bcrypt_digest other hashed
         = Ok (String.eqb (bcrypt_digest ("$2b$12$" ++ salt) other)
                          (bcrypt_digest ("$2b$12$" ++ salt) secret))) /\
     (forall other,
         CryptContext.accepts other = false ->
         AuthService.verify_password bcrypt_digest other hashed
         = Raise PasswordSizeError \/
         AuthService.verify_password bcrypt_digest other hashed
         = Raise PasswordValueError)) /\
  (CryptContext.accepts secret = false ->
   AuthService.get_password_hash bcrypt_digest salt secret
   = Raise PasswordSizeError \/
   AuthService.get_password_hash bcrypt_digest salt secret
   = Raise PasswordValueError).
Proof.
  split; [|apply hash_refused].
  intros Hsized Hacc.
  eexists. split; [apply hash_accepted; exact Hacc|].
  assert (Hcases := fun other => verify_hash_accepted salt secret other Hsized).
  split; [|split; [|split]].
  - destruct Hsized as (Hsl & Hsa & _ & Hdl & Hda & _).
    exists "$2b$"%string, "1"%char, "2"%char, salt,
      (bcrypt_digest ("$2b$12$" ++ salt) secret).
    repeat split; try assumption; try reflexivity;
      [simpl; tauto | discriminate | discriminate].
  - rewrite (Hcases secret Hacc), String.eqb_refl. reflexivity.
  - exact Hcases.
  - intros other Ho. rewrite (verify_hash salt secret other Hsized).
    unfold CryptContext.accepts in Ho.
    destruct (CryptContext.max_password_size <? String.length other)%nat;
      [left; reflexivity|].
    destruct (CryptContext.max_password_size
              <? CryptContext.utf8_size other)%nat; [left; reflexivity|].
    destruct (CryptContext.has_nul other); [right; reflexivity | discriminate].
Qed.

End HashRoundTrip.

Lemma X14_hash_then_verify_witness :
  (exists hashed,
     AuthService.get_password_hash Reference.digest
       "NaClNaClNaClNaClNaClNu" "pass1234" = Ok hashed /\
     CryptContext.well_formed hashed /\
     AuthService.verify_password Reference.digest "pass1234" hashed = Ok true /\
     (forall other,
         CryptContext.accepts other = true ->
         AuthService.verify_password Reference.digest other hashed
         = Ok (String.eqb
                 (Reference.digest ("$2b$12$" ++ "NaClNaClNaClNaClNaClNu") other)
                 (Reference.digest ("$2b$12$" ++ "NaClNaClNaClNaClNaClNu")
                    "pass1234"))) /\
     (forall other,
         CryptContext.accepts other = false ->
         AuthService.verify_password Reference.digest other hashed
         = Raise PasswordSizeError \/
         AuthService.verify_password Reference.digest other hashed
         = Raise PasswordValueError)) /\
  (AuthService.get_password_hash Reference.digest
     "NaClNaClNaClNaClNaClNu" nul_password = Raise PasswordSizeError \/
   AuthService.get_password_hash Reference.digest
     "NaClNaClNaClNaClNaClNu" nul_password = Raise PasswordValueError).
Proof.
  split.
  - apply (X14_hash_then_verify Reference.digest
             "NaClNaClNaClNaClNaClNu" "pass1234").
    + vm_compute. repeat split.
    + vm_compute. reflexivity.
  - apply (X14_hash_then_verify Reference.digest
             "NaClNaClNaClNaClNaClNu" nul_password).
    vm_compute. reflexivity.
Defined.

Section AccountLifeCycle.

Variable bcrypt_digest : string -> string -> string.
Context {J : JWT}.

Lemma find_user_fresh_id (users : list User) (bound : Z) :
  Forall (fun u => u_id u < bound) users ->
  List.find (fun u => u_id u =? bound) users = None.
Proof.
  induction 1 as [|a r Ha _ IH]; simpl; [reflexivity|].
  replace (u_id a =? bound) with false by (symmetry; apply Z.eqb_neq; lia).
  exact IH.
Qed.

Lemma truthy_str (n : Z) : AuthService.truthy (CStr (Py.str n)) = true.
Proof.
  simpl. apply negb_true_iff, String.eqb_neq, str_nonempty.
Qed.

(** An issued token, while it lives, resolves to the account stored under
    the subject's id if that account is active. *)
Lemma resolve_issued (db : DB) (user account : User) (issued now : Z) :
  now <= issued + AuthService.token_ttl ->
  UserRepository.get_by_id db (u_id user) = Some account ->
  u_is_active account = true ->
  AuthService.get_current_user db
    (AuthService.create_access_token (AuthService.token_data user) issued) now
  = Ok (Some account).
Proof.
  intros Hlive Hget Hact. unfold AuthService.get_current_user.
  unfold AuthService.token_data. rewrite verify_issued.
  replace (issued + AuthService.token_ttl <? now) with false
    by (symmetry; apply Z.ltb_ge; lia).
  case_bool_decide as Hempty.
  - apply (f_equal (fun m : gmap string claim => m !! "exp")) in Hempty.
    unfold access_claims in Hempty.
    rewrite lookup_insert_eq, lookup_empty in Hempty. discriminate.
  - unfold access_claims.
    rewrite lookup_insert_ne, lookup_insert_ne by discriminate.
    rewrite lookup_singleton_eq, truthy_str. simpl.
    rewrite int_str, Hget. simpl. rewrite Hact. reflexivity.
Qed.

(** X15. Sign up, log in, resolve.  Take a store whose account addresses
    and ids are pairwise distinct with the ids below the counter, an
    address that is not registered, a password the hashing scheme takes
    (at most 4096 bytes in UTF-8, no NUL), and a salt and digest of the
    scheme's sizes and alphabet without stray unused bits.  Then the
    sign-up returns a token and stores an account under the address;
    logging in afterwards with the same address and password returns a
    token; and both tokens resolve, until they expire, to the account
    that the sign-up stored. *)
Theorem X15_signup_login_resolve (db : DB) (user_data : UserCreate)
        (salt : string) (now login_time use_time : Z) :
  users_wf db ->
  UserRepository.get_by_email db (uc_email user_data) = None ->
  CryptContext.accepts (uc_password user_data) = true ->
  scheme_sized bcrypt_digest salt (uc_password user_data) ->
  exists account signup_token login_token db1,
    AuthService.signup bcrypt_digest db user_data salt now
    = (Ok (Some signup_token), db1) /\
    UserRepository.get_by_email db1 (uc_email user_data) = Some account /\
    u_email account = uc_email user_data /\
    AuthService.login bcrypt_digest db1
      {| ul_email := uc_email user_data;
         ul_password := uc_password user_data |} login_time
    = Ok (Some login_token) /\
    (use_time <= login_time + AuthService.token_ttl ->
     AuthService.get_current_user db1 (token login_token) use_time
     = Ok (Some account)) /\
    (use_time <= now + AuthService.token_ttl ->
     AuthService.get_current_user db1 (token signup_token) use_time
     = Ok (Some account)).
Proof.
  intros (_ & _ & Hids) Hfree Hacc Hsized.
  pose proof (signup_fresh bcrypt_digest db user_data salt now Hfree Hacc)
    as Hs.
  cbv zeta in Hs.
  set (account := {| u_id := db_next_user db; u_email := uc_email user_data;
                     u_hashed_password :=
                       (("$2b$12$" ++ salt)
                        ++ bcrypt_digest ("$2b$12$" ++ salt)
                             (uc_password user_data))%string;
                     u_is_active := true |}) in *.
  set (db1 := {| db_users := db_users db ++ [account];
                 db_posts := db_posts db;
                 db_next_user := db_next_user db + 1;
                 db_next_post := db_next_post db |}) in *.
  assert (Hmail : UserRepository.get_by_email db1 (uc_email user_data)
                  = Some account).
  { unfold UserRepository.get_by_email, first_where. simpl.
    apply find_app_fresh; [exact Hfree | simpl; apply String.eqb_refl]. }
  assert (Hid : UserRepository.get_by_id db1 (u_id account) = Some account).
  { unfold UserRepository.get_by_id, first_where. simpl.
    apply find_app_fresh; [apply find_user_fresh_id; exact Hids|].
    simpl. apply Z.eqb_refl. }
  eexists account, _, _, db1. split; [exact Hs|].
  split; [exact Hmail|]. split; [reflexivity|]. split.
  - unfold AuthService.login. simpl ul_email. rewrite Hmail. simpl.
    rewrite (verify_hash_accepted bcrypt_digest salt (uc_password user_data)
               (uc_password user_data) Hsized Hacc), String.eqb_refl.
    reflexivity.
  - split; intros Hlive; simpl token;
      apply resolve_issued; auto.
Qed.

End AccountLifeCycle.

Lemma X15_signup_login_resolve_witness :
  let new_user := {| uc_email := "d@x.com"; uc_password := "pass1234" |} in
  exists account signup_token login_token db1,
    AuthService.signup Reference.digest (J := ReferenceJWT.jwt)
      Fixture.store new_user "NaClNaClNaClNaClNaClNu" 1000
    = (Ok (Some signup_token), db1) /\
    UserRepository.get_by_email db1 "d@x.com" = Some account /\
    u_email account = "d@x.com"%string /\
    AuthService.login Reference.digest (J := ReferenceJWT.jwt) db1
      {| ul_email := "d@x.com"; ul_password := "pass1234" |} 2000
    = Ok (Some login_token) /\
    AuthService.get_current_user (J := ReferenceJWT.jwt) db1
      (token login_token) 2500 = Ok (Some account) /\
    AuthService.get_current_user (J := ReferenceJWT.jwt) db1
      (token signup_token) 2500 = Ok (Some account).
Proof.
  cbv zeta.
  destruct (X15_signup_login_resolve Reference.digest (J := ReferenceJWT.jwt)
              Fixture.store
              {| uc_email := "d@x.com"; uc_password := "pass1234" |}
              "NaClNaClNaClNaClNaClNu" 1000 2000 2500)
    as (account & signup_token & login_token & db1
        & Hsignup & Hmail & Haddr & Hlogin & Hlt & Hst).
  - split; [|split]; simpl.
    + repeat constructor; simpl; intros H; inversion H; subst;
        repeat match goal with
               | h : _ ∈ _ :: _ |- _ => inversion h; subst; clear h
               | h : _ ∈ [] |- _ => inversion h
               end; discriminate.
    + repeat constructor; simpl; intros H; inversion H; subst;
        repeat match goal with
               | h : _ ∈ _ :: _ |- _ => inversion h; subst; clear h
               | h : _ ∈ [] |- _ => inversion h
               end; discriminate.
    + repeat constructor.
  - vm_compute. reflexivity.
  - vm_compute. reflexivity.
  - vm_compute. repeat split.
  - exists account, signup_token, login_token, db1.
    split; [exact Hsignup|]. split; [exact Hmail|]. split; [exact Haddr|].
    split; [exact Hlogin|]. split.
    + apply Hlt. vm_compute. discriminate.
    + apply Hst. vm_compute. discriminate.
Defined.

Section TokenRejection.

Context {J : JWT}.

(** X16. A token the service issued stops working in two ways: once its
    life time has run out it resolves to nobody, and while it lives it
    resolves to nobody as soon as the account under its subject's id is
    missing or inactive; the bearer dependency then answers 401 with the
    [Bearer] challenge. *)
Theorem X16_issued_token_rejected (db : DB) (user : User) (issued now : Z) :
  let credentials :=
    AuthService.create_access_token (AuthService.token_data user) issued in
  (issued + AuthService.token_ttl < now \/
   UserRepository.get_by_id db (u_id user) = None \/
   (exists account, UserRepository.get_by_id db (u_id user) = Some account /\
                    u_is_active account = false)) ->
  AuthService.get_current_user db credentials now = Ok None /\
  AuthDependency.get_current_user db credentials now
  = Ok (AuthDependency.Challenge 401 "Invalid or expired token" "Bearer").
Proof.
  cbv zeta. intros Hcase.
  assert (Hnone : AuthService.get_current_user db
                    (AuthService.create_access_token
                       (AuthService.token_data user) issued) now = Ok None).
  { unfold AuthService.get_current_user, AuthService.token_data.
    rewrite verify_issued.
    destruct (issued + AuthService.token_ttl <? now) eqn:Hexp; [reflexivity|].
    destruct Hcase as [Hdead | Hacc]; [apply Z.ltb_ge in Hexp; lia|].
    case_bool_decide; [reflexivity|].
    unfold access_claims.
    rewrite lookup_insert_ne, lookup_insert_ne by discriminate.
    rewrite lookup_singleton_eq, truthy_str. simpl. rewrite int_str.
    destruct Hacc as [-> | (account & -> & Hina)]; [reflexivity|].
    simpl. rewrite Hina. reflexivity. }
  split; [exact Hnone|].
  unfold AuthDependency.get_current_user. rewrite Hnone. reflexivity.
Qed.

End TokenRejection.

Lemma X16_issued_token_rejected_witness :
  (let credentials :=
     AuthService.create_access_token (J := ReferenceJWT.jwt)
       (AuthService.token_data Fixture.alice) 1000 in
   AuthService.get_current_user (J := ReferenceJWT.jwt)
     Fixture.store credentials 2801 = Ok None /\
   AuthDependency.get_current_user (J := ReferenceJWT.jwt)
     Fixture.store credentials 2801
   = Ok (AuthDependency.Challenge 401 "Invalid or expired token" "Bearer")) /\
  (let credentials :=
     AuthService.create_access_token (J := ReferenceJWT.jwt)
       (AuthService.token_data Fixture.carol) 1000 in
   AuthService.get_current_user (J := ReferenceJWT.jwt)
     Fixture.store credentials 1001 = Ok None /\
   AuthDependency.get_current_user (J := ReferenceJWT.jwt)
     Fixture.store credentials 1001
   = Ok (AuthDependency.Challenge 401 "Invalid or expired token" "Bearer")).
Proof.
  split.
  - apply (X16_issued_token_rejected (J := ReferenceJWT.jwt)
             Fixture.store Fixture.alice 1000 2801).
    left. vm_compute. reflexivity.
  - apply (X16_issued_token_rejected (J := ReferenceJWT.jwt)
             Fixture.store Fixture.carol 1000 1001).
    right. right. exists Fixture.carol. split; vm_compute; reflexivity.
Defined.

Section AccountTable.

Variable bcrypt_digest : string -> string -> string.
Context {J : JWT}.

Lemma find_email_None_notin (users : list User) (email : string) :
  List.find (fun u => String.eqb (u_email u) email) users = None ->
  ~ In email (map u_email users).
Proof.
  intros Hnone Hin. apply in_map_iff in Hin as (u & Hu & Hin).
  pose proof (find_none _ _ Hnone u Hin) as Hf. simpl in Hf.
  rewrite Hu, String.eqb_refl in Hf. discriminate.
Qed.

Lemma signup_keeps_users_wf (db : DB) (user_data : UserCreate)
      (salt : string) (now : Z) :
  users_wf db ->
  let db1 := snd (AuthService.signup bcrypt_digest db user_data salt now) in
  users_wf db1 /\
  (exists added, db_users db1 = db_users db ++ added) /\
  db_posts db1 = db_posts db /\ db_next_post db1 = db_next_post db.
Proof.
  intros (Hmail & Hid & Hlt). cbv zeta.
  destruct (signup_store bcrypt_digest db user_data salt now)
    as [-> | (E & h & ->)].
  - repeat split; try assumption. exists []. rewrite app_nil_r. reflexivity.
  - simpl.
    split; [|split; [eexists; reflexivity | split; reflexivity]].
    unfold users_wf. simpl. rewrite !map_app. simpl. split; [|split].
    + apply NoDup_app. split; [exact Hmail|]. split; [|apply NoDup_singleton].
      intros x Hx [<-|[]]%list_elem_of_In.
      apply list_elem_of_In in Hx.
      exact (find_email_None_notin _ _ E Hx).
    + apply NoDup_app. split; [exact Hid|]. split; [|apply NoDup_singleton].
      intros x Hx [<-|[]]%list_elem_of_In.
      apply list_elem_of_In, in_map_iff in Hx as (u & Hu & Hin).
      rewrite List.Forall_forall in Hlt. specialize (Hlt u Hin). lia.
    + apply Forall_app. split.
      * eapply Forall_impl; [exact Hlt|]. simpl. intros; lia.
      * constructor; [simpl; lia | constructor].
Qed.

(** X17. Whatever sign-ups are made, with whatever addresses, the account
    table keeps its addresses pairwise distinct and its ids pairwise
    distinct and below the counter; accounts are only ever appended, and
    the post table is not touched. *)
Theorem X17_signups_keep_accounts_unique
        (reqs : list AuthService.signup_request) (db : DB) :
  users_wf db ->
  users_wf (AuthService.signups bcrypt_digest reqs db) /\
  (exists added,
      db_users (AuthService.signups bcrypt_digest reqs db)
      = db_users db ++ added) /\
  db_posts (AuthService.signups bcrypt_digest reqs db) = db_posts db.
Proof.
  revert db. induction reqs as [|[[user_data salt] now] rest IH];
    simpl; intros db Hwf.
  - split; [exact Hwf|]. split; [|reflexivity].
    exists []. rewrite app_nil_r. reflexivity.
  - destruct (signup_keeps_users_wf db user_data salt now Hwf)
      as (Hwf1 & (a1 & Ha1) & Hp1 & _).
    destruct (IH _ Hwf1) as (Hwf2 & (a2 & Ha2) & Hp2).
    split; [exact Hwf2|]. split.
    + exists (a1 ++ a2). rewrite Ha2, Ha1, app_assoc. reflexivity.
    + rewrite Hp2. exact Hp1.
Qed.

End AccountTable.

Lemma X17_signups_keep_accounts_unique_witness :
  let reqs := [({| uc_email := "d@x.com"; uc_password := "pass1234" |},
                "NaClNaClNaClNaClNaClNa"%string, 1000);
               ({| uc_email := "d@x.com"; uc_password := "other123" |},
                "NaClNaClNaClNaClNaClNa"%string, 1001);
               ({| uc_email := "a@x.com"; uc_password := "pass1234" |},
                "NaClNaClNaClNaClNaClNa"%string, 1002)] in
  users_wf (AuthService.signups Reference.digest (J := ReferenceJWT.jwt)
              reqs empty_db) /\
  (exists added,
      db_users (AuthService.signups Reference.digest (J := ReferenceJWT.jwt)
                  reqs empty_db)
      = db_users empty_db ++ added) /\
  db_posts (AuthService.signups Reference.digest (J := ReferenceJWT.jwt)
              reqs empty_db) = db_posts empty_db.
Proof.
  apply (X17_signups_keep_accounts_unique Reference.digest
           (J := ReferenceJWT.jwt)).
  split; [|split]; simpl; constructor.
Defined.

(** ** Lookups by key *)

Lemma find_unique {A K} (key : A -> K) (eqb : K -> K -> bool)
      (eqb_spec : forall x y, eqb x y = true <-> x = y)
      (rows : list A) (row : A) :
  NoDup (map key rows) -> In row rows ->
  List.find (fun r => eqb (key r) (key row)) rows = Some row.
Proof.
  induction rows as [|a r IH]; simpl; [tauto|].
  intros Hnd%NoDup_cons [-> | Hin]; destruct Hnd as [Hnotin Hnd].
  - rewrite (proj2 (eqb_spec _ _) eq_refl). reflexivity.
  - destruct (eqb (key a) (key row)) eqn:E; [|auto].
    apply eqb_spec in E. exfalso. apply Hnotin. rewrite E.
    apply list_elem_of_In, in_map, Hin.
Qed.

(** X18. On tables with unique keys the lookups are exact: every stored
    account is the one found under its address and under its id, and
    every stored post is the one found under its id; conversely whatever
    a lookup finds is a stored row with the key asked for. *)
Theorem X18_lookups_exact (db : DB) :
  users_wf db -> db_wf db ->
  (forall u, In u (db_users db) <->
             UserRepository.get_by_email db (u_email u) = Some u) /\
  (forall u, In u (db_users db) <->
             UserRepository.get_by_id db (u_id u) = Some u) /\
  (forall p, In p (db_posts db) <->
             PostRepository.get_by_id db (p_id p) = Some p).
Proof.
  intros (Hmail & Hid & _) (Hpid & _).
  unfold UserRepository.get_by_email, UserRepository.get_by_id,
    PostRepository.get_by_id, first_where.
  split; [|split]; intros x; split.
  - apply (find_unique u_email String.eqb String.eqb_eq); assumption.
  - intros H. apply find_some in H. tauto.
  - apply (find_unique u_id Z.eqb Z.eqb_eq); assumption.
  - intros H. apply find_some in H. tauto.
  - apply (find_unique p_id Z.eqb Z.eqb_eq); assumption.
  - intros H. apply find_some in H. tauto.
Qed.

Lemma X18_lookups_exact_witness :
  (forall u, In u (db_users Fixture.store) <->
             UserRepository.get_by_email Fixture.store (u_email u) = Some u) /\
  (forall u, In u (db_users Fixture.store) <->
             UserRepository.get_by_id Fixture.store (u_id u) = Some u) /\
  (forall p, In p (db_posts Fixture.store) <->
             PostRepository.get_by_id Fixture.store (p_id p) = Some p).
Proof.
  apply (X18_lookups_exact Fixture.store).
  - split; [|split]; simpl.
    + repeat constructor; simpl; intros H; inversion H; subst;
        repeat match goal with
               | h : _ ∈ _ :: _ |- _ => inversion h; subst; clear h
               | h : _ ∈ [] |- _ => inversion h
               end; discriminate.
    + repeat constructor; simpl; intros H; inversion H; subst;
        repeat match goal with
               | h : _ ∈ _ :: _ |- _ => inversion h; subst; clear h
               | h : _ ∈ [] |- _ => inversion h
               end; discriminate.
    + repeat constructor.
  - split; simpl; [apply NoDup_singleton | repeat constructor].
Defined.
